(** * Dataset acquisition (src/data/download_data.py) and the user store
      (src/auth/users.py): a shallow embedding and its properties.

    [download_data] is ten lines of Python over four library calls:
    [os.path.basename], [os.path.join], [os.makedirs] and [os.rename].
    The two string functions are embedded as they are written in
    [posixpath].  The two system calls act on a model of a POSIX file
    system: a tree of directories and regular files, a current working
    directory, path resolution component by component.  The tree has no
    symbolic or hard links and no concurrent writers.  What a tree cannot
    show (devices, permissions, a full or read-only device) is a parameter
    of the file system: the requests the system turns down, each with its
    error number.  A run threads a world through the calls: the file
    system, the environment variables, and the trace of what was done. *)

From Stdlib Require Import Ascii String.
From stdpp Require Import gmap strings list fin_maps.

#[local] Set Warnings "-register-all".
#[local] Open Scope string_scope.
#[local] Open Scope list_scope.

(** ** Paths as strings: [posixpath] *)

Module PosixPath.

(** [s.split('/')]: never empty, one more element than there are slashes. *)
Fixpoint split_slash (s : string) : list string :=
  match s with
  | EmptyString => [""]
  | String c r =>
      if bool_decide (c = "/"%char) then "" :: split_slash r
      else match split_slash r with
           | x :: xs => String c x :: xs
           | [] => [String c ""]
           end
  end.

(** [s.rfind('/')]: the index of the last slash, or [-1]. *)
Fixpoint rfind_slash (s : string) : Z :=
  match s with
  | EmptyString => (-1)%Z
  | String c r =>
      let i := rfind_slash r in
      if (0 <=? i)%Z then (i + 1)%Z
      else if bool_decide (c = "/"%char) then 0%Z else (-1)%Z
  end.

(** [s[n:]] *)
Fixpoint drop_chars (n : nat) (s : string) : string :=
  match n, s with
  | O, _ => s
  | S n', String _ r => drop_chars n' r
  | S _, EmptyString => ""
  end.

(** [posixpath.basename]: [i = p.rfind('/') + 1; return p[i:]]. *)
Definition basename (p : string) : string :=
  drop_chars (Z.to_nat (rfind_slash p + 1)) p.

Definition startswith_slash (s : string) : bool :=
  match s with
  | String c _ => bool_decide (c = "/"%char)
  | EmptyString => false
  end.

Fixpoint endswith_slash (s : string) : bool :=
  match s with
  | EmptyString => false
  | String c EmptyString => bool_decide (c = "/"%char)
  | String _ r => endswith_slash r
  end.

(** [posixpath.join(a, b)] with one tail argument, as [download_data] and
    [main] call it. *)
Definition join (a b : string) : string :=
  if startswith_slash b then b
  else if bool_decide (a = "") || endswith_slash a then a +:+ b
  else a +:+ "/" +:+ b.

Definition isabs (p : string) : bool := startswith_slash p.

(** [s[:n]] *)
Fixpoint take_chars (n : nat) (s : string) : string :=
  match n, s with
  | O, _ => ""
  | S n', String c r => String c (take_chars n' r)
  | S _, EmptyString => ""
  end.

(** [s == '/' * len(s)] *)
Fixpoint all_slashes (s : string) : bool :=
  match s with
  | EmptyString => true
  | String c r => bool_decide (c = "/"%char) && all_slashes r
  end.

(** [s.rstrip('/')] *)
Fixpoint rstrip_slash (s : string) : string :=
  match s with
  | EmptyString => ""
  | String c r =>
      match rstrip_slash r with
      | EmptyString => if bool_decide (c = "/"%char) then "" else String c ""
      | r' => String c r'
      end
  end.

(** [posixpath.dirname], which the tests apply to the returned path:
    [i = p.rfind('/') + 1; head = p[:i]], and [head.rstrip('/')] unless
    [head] is empty or all slashes. *)
Definition dirname (p : string) : string :=
  let head := take_chars (Z.to_nat (rfind_slash p + 1)) p in
  if negb (bool_decide (head = "")) && negb (all_slashes head)
  then rstrip_slash head
  else head.

End PosixPath.

Export PosixPath.

(** ** The file system *)

Inductive node : Type :=
  | File (data : string)
  | Dir (entries : gmap string node).

(** The place of a node: the names from the root down to it. *)
Definition key : Type := list string.

Inductive kind : Type :=
  | KFile (data : string)
  | KDir.

Definition kind_of (n : node) : kind :=
  match n with
  | File d => KFile d
  | Dir _ => KDir
  end.

Fixpoint get (t : node) (k : key) : option node :=
  match k with
  | [] => Some t
  | c :: k' =>
      match t with
      | Dir es => match es !! c with
                  | Some n => get n k'
                  | None => None
                  end
      | File _ => None
      end
  end.

(** [put t k v] binds the entry at [k] to [v]; the parent of [k] has to be
    a directory of [t], otherwise nothing changes. *)
Fixpoint put (t : node) (k : key) (v : node) : node :=
  match k with
  | [] => v
  | c :: k' =>
      match t with
      | Dir es =>
          match k' with
          | [] => Dir (<[c := v]> es)
          | _ :: _ => match es !! c with
                      | Some n => Dir (<[c := put n k' v]> es)
                      | None => t
                      end
          end
      | File _ => t
      end
  end.

(** [del t k] unlinks the entry at [k] with everything below it. *)
Fixpoint del (t : node) (k : key) : node :=
  match k with
  | [] => t
  | c :: k' =>
      match t with
      | Dir es =>
          match k' with
          | [] => Dir (delete c es)
          | _ :: _ => match es !! c with
                      | Some n => Dir (<[c := del n k']> es)
                      | None => t
                      end
          end
      | File _ => t
      end
  end.

Definition stat (t : node) (k : key) : option kind := kind_of <$> get t k.

(** The error numbers the calls answer with; [Errno] stands for any the
    model gives no name. *)
Inductive errno : Type :=
  | ENOENT | ENOTDIR | EISDIR | EEXIST | ENOTEMPTY | EINVAL | EBUSY
  | EXDEV | ENAMETOOLONG | EACCES | EPERM | EROFS | ENOSPC
  | Errno (code : nat).

#[global] Instance errno_eq_dec : EqDecision errno.
Proof. solve_decision. Defined.

Inductive exn : Type :=
  | ValueError (msg : string)
  | OSError (e : errno)
  | Exception (class msg : string).

(** The subclass of [OSError] Python raises for an error number. *)
Definition exception_class (e : errno) : string :=
  match e with
  | ENOENT => "FileNotFoundError"
  | ENOTDIR => "NotADirectoryError"
  | EISDIR => "IsADirectoryError"
  | EEXIST => "FileExistsError"
  | EACCES | EPERM => "PermissionError"
  | _ => "OSError"
  end.

(** A path with a NUL byte never reaches the system: the [os] functions
    raise [ValueError] when they convert it. *)
Fixpoint has_nul (s : string) : bool :=
  match s with
  | EmptyString => false
  | String c r => bool_decide (c = Ascii.zero) || has_nul r
  end.

Definition embedded_null : exn := ValueError "embedded null byte".

(** What the tree does not show.  Whether the system grants a request
    also depends on the devices the directories are on, on permissions,
    on a device that is full or mounted read-only.  [denied] says which
    requests are turned down for such a reason, and with which error
    number.  It belongs to the file system and stays as it is when the
    tree changes. *)
Inductive request : Type :=
  | Lookup (dir : key) (name : string)
  | Mkdir (k : key)
  | Cross (from to : key)
  | Move (s d : key).

Record filesystem : Type := Filesystem {
  tree : node;
  cwd : key;
  denied : request → option errno
}.

(** Nothing is turned down: one device, every permission. *)
Definition permissive : request → option errno := λ _, None.

(** One component of a path moves the walk: [""] and ["."] stay, [".."]
    goes to the parent (the root is its own parent), a name goes down. *)
Definition special (c : string) : bool :=
  bool_decide (c = "") || bool_decide (c = ".") || bool_decide (c = "..").

Definition step (cur : key) (c : string) : key :=
  if bool_decide (c = "") || bool_decide (c = ".") then cur
  else if bool_decide (c = "..") then removelast cur
  else cur ++ [c].

(** [NAME_MAX]: the bytes a file name may have. *)
Definition name_max : nat := 255.

(** Looking [c] up in the directory [dir]: a name longer than [NAME_MAX]
    is [ENAMETOOLONG], and the system may deny the lookup.  An empty
    component (a doubled or trailing slash) looks nothing up. *)
Definition refused (o : request → option errno) (dir : key) (c : string)
  : option errno :=
  if bool_decide (c = "") then None
  else if bool_decide (name_max < String.length c)%nat then Some ENAMETOOLONG
  else o (Lookup dir c).

(** Path resolution: before each component the place reached so far has
    to be a directory in which the component may be looked up.  The place
    reached last is returned unchecked. *)
Fixpoint walk (o : request → option errno) (t : node) (cur : key)
    (cs : list string) : errno + key :=
  match cs with
  | [] => inr cur
  | c :: cs' =>
      match stat t cur with
      | None => inl ENOENT
      | Some (KFile _) => inl ENOTDIR
      | Some KDir =>
          match refused o cur c with
          | Some e => inl e
          | None => walk o t (step cur c) cs'
          end
      end
  end.

Definition start (fs : filesystem) (p : string) : key :=
  if isabs p then [] else cwd fs.

Definition resolve (fs : filesystem) (p : string) : errno + key :=
  if bool_decide (p = "") then inl ENOENT
  else walk (denied fs) (tree fs) (start fs p) (split_slash p).

(** [os.stat] *)
Definition os_stat (fs : filesystem) (p : string) : exn + kind :=
  if has_nul p then inl embedded_null
  else
    match resolve fs p with
    | inl e => inl (OSError e)
    | inr k => match stat (tree fs) k with
               | None => inl (OSError ENOENT)
               | Some x => inr x
               end
    end.

(** [os.path.exists], [os.path.isdir], [os.path.isfile]: [False] on any
    [OSError] or [ValueError]. *)
Definition path_exists (fs : filesystem) (p : string) : bool :=
  match os_stat fs p with inr _ => true | inl _ => false end.

Definition isdir (fs : filesystem) (p : string) : bool :=
  match os_stat fs p with inr KDir => true | _ => false end.


(** [open(p).read()] *)
Definition read_file (fs : filesystem) (p : string) : option string :=
  match os_stat fs p with inr (KFile d) => Some d | _ => None end.

(** [os.path.samefile] on paths that resolve. *)
Definition samefile (fs : filesystem) (p q : string) : bool :=
  match resolve fs p, resolve fs q with
  | inr k1, inr k2 => bool_decide (k1 = k2)
  | _, _ => false
  end.

(** Slashes at the end of a path are set aside before its last component
    is looked at. *)
Fixpoint strip (cs : list string) : list string :=
  match cs with
  | [] => []
  | c :: cs' =>
      match strip cs' with
      | [] => if bool_decide (c = "") then [] else [c]
      | l => c :: l
      end
  end.

Definition trailing (p : string) : bool :=
  bool_decide (strip (split_slash p) ≠ split_slash p).

(** ** [os.makedirs(name, exist_ok=True)]

    Every directory missing along [name] is created on the way.  A
    component with a NUL byte is a [ValueError]; a regular file met on the
    way, a lookup or a creation the system turns down, is an [OSError];
    what was created before the failure stays.  At the end [name] has to
    be a directory: a regular file there is [FileExistsError], with or
    without slashes after it. *)
Fixpoint mkwalk (o : request → option errno) (t : node) (cur : key)
    (cs : list string) : (exn + key) * node :=
  match cs with
  | [] => (inr cur, t)
  | c :: cs' =>
      if has_nul c then (inl embedded_null, t)
      else
        match stat t cur with
        | None => (inl (OSError ENOENT), t)
        | Some (KFile _) => (inl (OSError ENOTDIR), t)
        | Some KDir =>
            match refused o cur c with
            | Some e => (inl (OSError e), t)
            | None =>
                let k := step cur c in
                match stat t k with
                | None =>
                    match o (Mkdir k) with
                    | Some e => (inl (OSError e), t)
                    | None => mkwalk o (put t k (Dir ∅)) k cs'
                    end
                | Some _ => mkwalk o t k cs'
                end
            end
        end
  end.

Definition with_tree (fs : filesystem) (t : node) : filesystem :=
  {| tree := t; cwd := cwd fs; denied := denied fs |}.

Definition makedirs_fs (fs : filesystem) (p : string)
  : option exn * filesystem :=
  if bool_decide (p = "") then (Some (OSError ENOENT), fs)
  else
    let '(r, t') :=
      mkwalk (denied fs) (tree fs) (start fs p) (strip (split_slash p)) in
    match r with
    | inl e => (Some e, with_tree fs t')
    | inr k =>
        match stat t' k with
        | Some KDir => (None, with_tree fs t')
        | Some (KFile _) => (Some (OSError EEXIST), with_tree fs t')
        | None => (Some (OSError ENOENT), with_tree fs t')
        end
    end.

(** ** [os.rename(src, dst)]

    Both paths are resolved up to their last component, which names the
    entry. *)
Definition parent_of (fs : filesystem) (p : string) : errno + (key * string) :=
  if bool_decide (p = "") then inl ENOENT
  else
    let cs := strip (split_slash p) in
    match walk (denied fs) (tree fs) (start fs p) (removelast cs) with
    | inl e => inl e
    | inr d =>
        match stat (tree fs) d with
        | None => inl ENOENT
        | Some (KFile _) => inl ENOTDIR
        | Some KDir => inr (d, List.last cs "")
        end
    end.

Definition relink (t : node) (s d : key) (n : node) : node :=
  put (del t s) d n.

(** The working directory follows a directory that is moved. *)
Definition rekey (s d k : key) : key :=
  if bool_decide (s `prefix_of` k) then d ++ drop (length s) k else k.

Definition move_file (fs : filesystem) (s d : key) (c : string) : filesystem :=
  {| tree := relink (tree fs) s d (File c); cwd := cwd fs;
     denied := denied fs |}.

Definition move_dir (fs : filesystem) (s d : key) (es : gmap string node)
  : filesystem :=
  {| tree := relink (tree fs) s d (Dir es); cwd := rekey s d (cwd fs);
     denied := denied fs |}.

(** The move is made if the system grants it. *)
Definition granted (fs : filesystem) (r : request) (fs' : filesystem)
  : errno + filesystem :=
  match denied fs r with
  | Some e => inl e
  | None => inr fs'
  end.

(** The system call.  The two directories have to be on one device
    ([EXDEV] is what [Cross] is denied with), the two names have to be
    names that can be looked up.  A missing source is [ENOENT].  A regular
    file moves onto a regular file or onto nothing, not onto a directory
    ([EISDIR]).  A directory moves onto an empty directory or onto
    nothing, not into itself ([EINVAL]), not onto a regular file
    ([ENOTDIR]) or a directory with entries ([ENOTEMPTY]).  A source that
    is the target already is a success that changes nothing.  A failure
    changes nothing. *)
Definition rename_sys (fs : filesystem) (old new : string)
  : errno + filesystem :=
  match parent_of fs old with
  | inl e => inl e
  | inr (od, ol) =>
      match parent_of fs new with
      | inl e => inl e
      | inr (nd, nl) =>
          match denied fs (Cross od nd) with
          | Some e => inl e
          | None =>
              if special ol || special nl then inl EBUSY
              else
                match refused (denied fs) od ol with
                | Some e => inl e
                | None =>
                    match refused (denied fs) nd nl with
                    | Some e => inl e
                    | None =>
                        let s := od ++ [ol] in
                        let d := nd ++ [nl] in
                        match get (tree fs) s with
                        | None => inl ENOENT
                        | Some (File c) =>
                            if trailing old || trailing new then inl ENOTDIR
                            else
                              match stat (tree fs) d with
                              | Some KDir => inl EISDIR
                              | _ =>
                                  if bool_decide (s = d) then inr fs
                                  else granted fs (Move s d)
                                         (move_file fs s d c)
                              end
                        | Some (Dir es) =>
                            if bool_decide (s = d) then inr fs
                            else if bool_decide (s `prefix_of` d)
                            then inl EINVAL
                            else
                              match get (tree fs) d with
                              | Some (File _) => inl ENOTDIR
                              | Some (Dir es') =>
                                  if bool_decide (dom es' = ∅)
                                  then granted fs (Move s d)
                                         (move_dir fs s d es)
                                  else inl ENOTEMPTY
                              | None =>
                                  granted fs (Move s d) (move_dir fs s d es)
                              end
                        end
                    end
                end
          end
      end
  end.

(** [os.rename]: Python converts the two paths, then makes the call. *)
Definition rename_fs (fs : filesystem) (old new : string)
  : exn + filesystem :=
  if has_nul old || has_nul new then inl embedded_null
  else
    match rename_sys fs old new with
    | inl e => inl (OSError e)
    | inr fs' => inr fs'
    end.

(** ** Effects and the world *)

(** What a run does, in the order it does it. *)
Inductive event : Type :=
  | LogInfo (msg : string)
  | Called (args : list string) (outcome : exn + string)
  | Makedirs (path : string) (outcome : option exn)
  | Rename (src dst : string) (outcome : option exn).

Record world : Type := World {
  w_fs : filesystem;
  w_env : gmap string string;
  w_trace : list event
}.

(** A caller-supplied download function: it does what it likes to the
    file system, then returns a path or raises. *)
Definition download_fn : Type := filesystem → (exn + string) * filesystem.

Definition M (A : Type) : Type := world → (exn + A) * world.

Definition ret {A} (a : A) : M A := λ w, (inr a, w).

Definition raise {A} (e : exn) : M A := λ w, (inl e, w).

Definition bind {A B} (m : M A) (k : A → M B) : M B :=
  λ w, match m w with
       | (inl e, w') => (inl e, w')
       | (inr a, w') => k a w'
       end.

Notation "x <- m ;; k" := (bind m (λ x, k))
  (at level 100, m at next level, right associativity).
Notation "m ;;; k" := (bind m (λ _, k))
  (at level 100, right associativity).

Definition emit (ev : event) (w : world) : world :=
  {| w_fs := w_fs w; w_env := w_env w; w_trace := w_trace w ++ [ev] |}.

Definition set_fs (fs : filesystem) (w : world) : world :=
  {| w_fs := fs; w_env := w_env w; w_trace := w_trace w |}.

Definition logging_info (msg : string) : M unit :=
  λ w, (inr tt, emit (LogInfo msg) w).

(** [f()] *)
Definition call (f : download_fn) : M string :=
  λ w, let '(r, fs') := f (w_fs w) in (r, emit (Called [] r) (set_fs fs' w)).

Definition os_makedirs (p : string) : M unit :=
  λ w, let '(r, fs') := makedirs_fs (w_fs w) p in
       let w' := emit (Makedirs p r) (set_fs fs' w) in
       match r with
       | Some e => (inl e, w')
       | None => (inr tt, w')
       end.

Definition os_rename (src dst : string) : M unit :=
  λ w, match rename_fs (w_fs w) src dst with
       | inl e => (inl e, emit (Rename src dst (Some e)) w)
       | inr fs' => (inr tt, emit (Rename src dst None) (set_fs fs' w))
       end.

Definition os_getenv (name dflt : string) : M string :=
  λ w, (inr (default dflt (w_env w !! name)), w).

(** ** src/data/download_data.py *)

Definition downloading : event := LogInfo ">>> Downloading dataset ...".

Definition saved_to (path : string) : event :=
  LogInfo (">>> Data saved to: " +:+ path).

Definition download_data (raw_data_path : string)
    (download_func : option download_fn) : M string :=
  if bool_decide (raw_data_path = "") then
    raise (ValueError "raw_data_path cannot be empty")
  else
    match download_func with
    | None => raise (ValueError "download_func cannot be empty")
    | Some f =>
        logging_info ">>> Downloading dataset ..." ;;;
        file_path <- call f ;;
        os_makedirs raw_data_path ;;;
        let new_file_path := join raw_data_path (basename file_path) in
        os_rename file_path new_file_path ;;;
        logging_info (">>> Data saved to: " +:+ new_file_path) ;;;
        ret new_file_path
    end.

(** [main]: [root_dir] stands for
    [path.dirname(path.dirname(path.abspath(__file__)))] and
    [download_kaggle_data] for the closure over [kagglehub]. *)
Definition main (root_dir : string) (download_kaggle_data : download_fn)
  : M unit :=
  v <- os_getenv "RAW_DATA_PATH" "data/raw/" ;;
  let raw_data_path := join root_dir v in
  os_makedirs raw_data_path ;;;
  download_data raw_data_path (Some download_kaggle_data) ;;;
  ret tt.

(** ** src/auth/users.py *)

Inductive pyval : Type :=
  | VStr (s : string)
  | VBool (b : bool).

#[global] Instance pyval_eq_dec : EqDecision pyval.
Proof. solve_decision. Defined.

(** [from .schemas import UserInDB]: the module [schemas] is not among the
    sources, so the class is an interface here: a type, and its
    construction from keyword arguments, which is taken to accept the row
    the store holds. *)
Class Schemas : Type := {
  UserInDB : Type;
  UserInDB_init : gmap string pyval → UserInDB
}.

Definition alice : gmap string pyval :=
  {[ "username" := VStr "alice";
     "hashed_password" :=
       VStr "$2b$12$KIXQ1j1F8pYQxvFJH3hE5O6ZLZK9Gz7Hh9c6mV1XyN0k7P6f4nJqS";
     "disabled" := VBool false ]}.

Definition fake_users_db : gmap string (gmap string pyval) :=
  {[ "alice" := alice ]}.

(** [if user:] on a dict: true unless it is empty. *)
Definition truthy (d : gmap string pyval) : bool := bool_decide (d ≠ ∅).

Definition get_user `{Schemas} (username : string) : option UserInDB :=
  match fake_users_db !! username with
  | Some user => if truthy user then Some (UserInDB_init user) else None
  | None => None
  end.

(** A schema to run [get_user] with: the three fields of the stored row. *)
Record user_record : Type := UserRecord {
  username : option pyval;
  hashed_password : option pyval;
  disabled : option pyval
}.

Definition record_schemas : Schemas := {|
  UserInDB := user_record;
  UserInDB_init := λ kw,
    {| username := kw !! "username";
       hashed_password := kw !! "hashed_password";
       disabled := kw !! "disabled" |}
|}.

(** ** Vocabulary of the specification *)

(** Modelled from the spec: the error taxonomy of its section 7.  The code
    raises plain Python exceptions and names no such classes; a failed run
    is classed by the step that raised, which is the last thing the run
    did: nothing at all for the two guards, the call of the download
    function or the move for [AcquisitionFailed], the directory creation
    for [DirectoryCreationFailed]. *)
Inductive error_kind : Type :=
  | InvalidArgument
  | AcquisitionFailed
  | DirectoryCreationFailed.

Definition failure_kind (evs : list event) : option error_kind :=
  match last evs with
  | None => Some InvalidArgument
  | Some (Called _ (inl _)) => Some AcquisitionFailed
  | Some (Rename _ _ (Some _)) => Some AcquisitionFailed
  | Some (Makedirs _ (Some _)) => Some DirectoryCreationFailed
  | Some _ => None
  end.

(** The events a run added to the trace. *)
Definition events_of_run (w w' : world) : list event :=
  drop (length (w_trace w)) (w_trace w').

Definition is_call (ev : event) : bool :=
  match ev with Called _ _ => true | _ => false end.

(** The directory entry a path names for [os.rename], when it names one. *)
Definition place (fs : filesystem) (p : string) : option key :=
  match parent_of fs p with
  | inr (d, l) => if special l then None else Some (d ++ [l])
  | inl _ => None
  end.

(** Two file systems hold the same regular files at the same places. *)
Definition same_files (a b : filesystem) : Prop :=
  ∀ k d, stat (tree a) k = Some (KFile d) ↔ stat (tree b) k = Some (KFile d).

(** [t'] is [t] with directories added where nothing was. *)
Definition grows (t t' : node) : Prop :=
  ∀ q, match stat t q with
       | Some x => stat t' q = Some x
       | None => stat t' q = None ∨ stat t' q = Some KDir
       end.

(** The file system as it is when the download function has returned or
    raised, or as it was when the function is never called. *)
Definition after_retrieval (raw_data_path : string)
    (download_func : option download_fn) (w : world) : filesystem :=
  if bool_decide (raw_data_path = "") then w_fs w
  else match download_func with
       | None => w_fs w
       | Some f => snd (f (w_fs w))
       end.

(** The places a path passes, from where it starts to where it ends:
    they depend on the path alone, not on what is in the tree. *)
Fixpoint places (cur : key) (cs : list string) : list key :=
  match cs with
  | [] => [cur]
  | c :: cs' => cur :: places (step cur c) cs'
  end.

(** A plain file or directory name. *)
Definition plain (c : string) : bool :=
  negb (special c) && bool_decide (rfind_slash c = (-1)%Z).

(** ** Worlds to run the code in *)

Module Examples.

(** The scenario of the specification: [/tmp/src/accidents.zip] holds
    [test data], [/tmp/raw_data] does not exist. *)
Definition fs0 : filesystem :=
  {| tree := Dir {[ "tmp" :=
       Dir {[ "src" := Dir {[ "accidents.zip" := File "test data" ]} ]} ]};
     cwd := ["tmp"];
     denied := permissive |}.

Definition w0 : world := {| w_fs := fs0; w_env := ∅; w_trace := [] |}.

Definition retrieve_zip : download_fn :=
  λ fs, (inr "/tmp/src/accidents.zip", fs).


(** One that returns the directory it downloaded into. *)
Definition retrieve_dir : download_fn := λ fs, (inr "/tmp/src", fs).

(** One that returns that directory with a slash at the end of its
    path. *)
Definition retrieve_dir_slash : download_fn := λ fs, (inr "/tmp/src/", fs).

(** One that returns a path where nothing is. *)
Definition retrieve_nothing : download_fn :=
  λ fs, (inr "/tmp/src/nothing.zip", fs).

(** One that raises. *)
Definition retrieve_raises : download_fn :=
  λ fs, (inl (Exception "ConnectionError" "network unreachable"), fs).

(** A world where an older [accidents.zip] is already in [/tmp/raw_data]. *)
Definition fs_old : filesystem :=
  {| tree := Dir {[ "tmp" := Dir {[
       "src" := Dir {[ "accidents.zip" := File "test data" ]};
       "raw_data" := Dir {[ "accidents.zip" := File "stale" ]} ]} ]};
     cwd := [];
     denied := permissive |}.

Definition w_old : world := {| w_fs := fs_old; w_env := ∅; w_trace := [] |}.

(** A world where [/tmp/raw_data] is a regular file. *)
Definition fs_blocked : filesystem :=
  {| tree := Dir {[ "tmp" := Dir {[
       "src" := Dir {[ "accidents.zip" := File "test data" ]};
       "raw_data" := File "not a directory" ]} ]};
     cwd := [];
     denied := permissive |}.

Definition w_blocked : world :=
  {| w_fs := fs_blocked; w_env := ∅; w_trace := [] |}.

(** A world with a second device mounted at [/mnt]: no entry moves
    between a directory at or below [/mnt] and one elsewhere. *)
Definition device (k : key) : nat :=
  if bool_decide (["mnt"] `prefix_of` k) then 1%nat else 0%nat.

Definition two_devices : request → option errno :=
  λ r, match r with
       | Cross a b => if bool_decide (device a = device b) then None
                      else Some EXDEV
       | _ => None
       end.

Definition fs_mnt : filesystem :=
  {| tree := Dir {[ "tmp" :=
       Dir {[ "src" := Dir {[ "accidents.zip" := File "test data" ]} ]};
       "mnt" := Dir ∅ ]};
     cwd := [];
     denied := two_devices |}.

Definition w_mnt : world := {| w_fs := fs_mnt; w_env := ∅; w_trace := [] |}.

(** A world where [/srv] may be read and not written to. *)
Definition read_only_srv : request → option errno :=
  λ r, match r with
       | Mkdir k | Move _ k =>
           if bool_decide (["srv"] `prefix_of` k) then Some EACCES else None
       | _ => None
       end.

Definition fs_srv : filesystem :=
  {| tree := Dir {[ "tmp" :=
       Dir {[ "src" := Dir {[ "accidents.zip" := File "test data" ]} ]};
       "srv" := Dir ∅ ]};
     cwd := [];
     denied := read_only_srv |}.

Definition w_srv : world := {| w_fs := fs_srv; w_env := ∅; w_trace := [] |}.


(** A name of 256 bytes, one more than [NAME_MAX], and a path with a NUL
    byte in its last component. *)
Definition long_name : string :=
  Eval cbv in fold_right String.append "" (replicate 256 "x").

Definition nul_path : string := "/tmp/new/" +:+ String Ascii.zero "x".

End Examples.

(** * Properties *)

(** ** Strings and paths *)

Lemma split_slash_nonempty s : split_slash s ≠ [].
Proof.
  destruct s as [|c r]; simpl; [done|].
  case_bool_decide; [done|]. by destruct (split_slash r).
Qed.

Lemma append_nil s : "" +:+ s = s.
Proof. reflexivity. Qed.

Lemma append_cons c r s : String c r +:+ s = String c (r +:+ s).
Proof. reflexivity. Qed.

Lemma append_assoc s1 s2 s3 : (s1 +:+ s2) +:+ s3 = s1 +:+ s2 +:+ s3.
Proof.
  induction s1 as [|c r IH]; [done|]. by rewrite !append_cons, IH.
Qed.

Lemma split_slash_app s1 s2 :
  split_slash (s1 +:+ "/" +:+ s2) = split_slash s1 ++ split_slash s2.
Proof.
  induction s1 as [|c r IH]; [done|].
  rewrite append_cons. simpl.
  case_bool_decide; [by rewrite IH|].
  rewrite IH. pose proof (split_slash_nonempty r).
  by destruct (split_slash r).
Qed.

Lemma split_slash_snoc s : split_slash (s +:+ "/") = split_slash s ++ [""].
Proof. apply (split_slash_app s ""). Qed.

Lemma rfind_slash_ge s : (-1 ≤ rfind_slash s)%Z.
Proof.
  induction s as [|c r IH]; simpl; [lia|].
  destruct (Z.leb_spec 0 (rfind_slash r)); [lia|].
  case_bool_decide; lia.
Qed.

Lemma rfind_slash_cons c r :
  rfind_slash (String c r) = (-1)%Z ↔ c ≠ "/"%char ∧ rfind_slash r = (-1)%Z.
Proof.
  pose proof (rfind_slash_ge r). simpl.
  destruct (Z.leb_spec 0 (rfind_slash r)); [lia|].
  case_bool_decide; [split; [lia|tauto]|split; [split; [done|lia]|lia]].
Qed.

Lemma split_slash_noslash s : rfind_slash s = (-1)%Z → split_slash s = [s].
Proof.
  induction s as [|c r IH]; [done|].
  intros [Hc Hr]%rfind_slash_cons. simpl.
  rewrite bool_decide_false by done. by rewrite IH.
Qed.

Lemma split_slash_slash s :
  (0 ≤ rfind_slash s)%Z → ∃ x y l, split_slash s = x :: y :: l.
Proof.
  induction s as [|c r IH]; simpl; [lia|].
  destruct (Z.leb_spec 0 (rfind_slash r)) as [Hr|Hr].
  - intros _. destruct (IH Hr) as (x & y & l & ->).
    case_bool_decide; eauto.
  - case_bool_decide; [|lia]. intros _.
    pose proof (split_slash_nonempty r).
    destruct (split_slash r) as [|x l]; [done|]. eauto.
Qed.

Lemma basename_cons c r :
  basename (String c r) =
    if (0 <=? rfind_slash r)%Z then basename r
    else if bool_decide (c = "/"%char) then r else String c r.
Proof.
  unfold basename. simpl. pose proof (rfind_slash_ge r).
  destruct (Z.leb_spec 0 (rfind_slash r)).
  - replace (Z.to_nat (rfind_slash r + 1 + 1))
      with (S (Z.to_nat (rfind_slash r + 1))) by lia. done.
  - case_bool_decide; [done|].
    replace (rfind_slash r) with (-1)%Z by lia. done.
Qed.

Lemma basename_last s : basename s = List.last (split_slash s) "".
Proof.
  induction s as [|c r IH]; [done|].
  rewrite basename_cons. pose proof (rfind_slash_ge r).
  destruct (Z.leb_spec 0 (rfind_slash r)) as [Hr|Hr].
  - destruct (split_slash_slash r Hr) as (x & y & l & E).
    rewrite IH. simpl. rewrite E. by case_bool_decide.
  - assert (rfind_slash r = (-1)%Z) as Hn by lia.
    simpl. rewrite (split_slash_noslash r Hn). by case_bool_decide.
Qed.

Lemma basename_noslash s : rfind_slash (basename s) = (-1)%Z.
Proof.
  induction s as [|c r IH]; [done|].
  rewrite basename_cons. pose proof (rfind_slash_ge r).
  destruct (Z.leb_spec 0 (rfind_slash r)) as [Hr|Hr]; [done|].
  assert (rfind_slash r = (-1)%Z) as Hn by lia.
  case_bool_decide; [done|]. by apply rfind_slash_cons.
Qed.

Lemma startswith_noslash s :
  rfind_slash s = (-1)%Z → startswith_slash s = false.
Proof.
  destruct s as [|c r]; [done|].
  intros [Hc _]%rfind_slash_cons. simpl. by rewrite bool_decide_false.
Qed.

Lemma endswith_slash_inv s :
  endswith_slash s = true → ∃ s', s = s' +:+ "/".
Proof.
  induction s as [|c r IH]; [done|].
  destruct r as [|c' r'].
  - simpl. intros ->%bool_decide_eq_true. by exists "".
  - intros H. destruct IH as [s' E]; [done|].
    exists (String c s'). by rewrite append_cons, <- E.
Qed.

(** How [join] shows in the components: the name is appended, and takes
    the place of the empty component a trailing slash leaves. *)
Lemma split_slash_join a b :
  a ≠ "" → rfind_slash b = (-1)%Z →
  split_slash (join a b) = split_slash a ++ [b]
  ∨ ∃ cs, split_slash a = cs ++ [""] ∧ split_slash (join a b) = cs ++ [b].
Proof.
  intros Ha Hb. unfold join.
  rewrite (startswith_noslash b Hb), bool_decide_false by done. simpl.
  destruct (endswith_slash a) eqn:E.
  - right. destruct (endswith_slash_inv a E) as [a' ->].
    exists (split_slash a'). split; [apply split_slash_snoc|].
    pose proof (split_slash_app a' b) as H.
    rewrite (split_slash_noslash b Hb) in H. rewrite <- H.
    f_equal. by rewrite append_assoc.
  - left. rewrite split_slash_app. by rewrite (split_slash_noslash b Hb).
Qed.

Lemma join_nonempty a b : a ≠ "" → join a b ≠ "".
Proof.
  intros Ha. unfold join. destruct b as [|c r].
  - simpl. rewrite bool_decide_false by done.
    destruct (endswith_slash a); destruct a; naive_solver.
  - simpl. case_bool_decide; [done|].
    rewrite bool_decide_false by done.
    destruct (endswith_slash a); destruct a; naive_solver.
Qed.

Lemma isabs_join a b :
  a ≠ "" → rfind_slash b = (-1)%Z → isabs (join a b) = isabs a.
Proof.
  intros Ha Hb. unfold join, isabs.
  rewrite (startswith_noslash b Hb), bool_decide_false by done. simpl.
  destruct (endswith_slash a); by destruct a.
Qed.

Lemma last_snoc (l : list string) x d : List.last (l ++ [x]) d = x.
Proof. apply List.last_last. Qed.

(** The file name survives [join]: the base name of the joined path is the
    name that was joined. *)
Lemma basename_join a b :
  rfind_slash b = (-1)%Z → basename (join a b) = b.
Proof.
  intros Hb. destruct (decide (a = "")) as [->|Ha].
  - unfold join. rewrite (startswith_noslash b Hb). simpl.
    rewrite append_nil, basename_last, (split_slash_noslash b Hb). done.
  - rewrite basename_last.
    destruct (split_slash_join a b Ha Hb) as [->|(cs & _ & ->)];
      apply last_snoc.
Qed.

(** ** The tree *)

Lemma get_app t p q : get t (p ++ q) = get t p ≫= λ n, get n q.
Proof.
  revert t. induction p as [|c p IH]; intros t; [done|].
  simpl. destruct t as [|es]; [done|]. destruct (es !! c); [apply IH|done].
Qed.

Lemma get_cons es c k : get (Dir es) (c :: k) = es !! c ≫= λ n, get n k.
Proof. simpl. by destruct (es !! c). Qed.

Lemma stat_nil t : stat t [] = Some (kind_of t).
Proof. done. Qed.

Lemma stat_dir_inv t : stat t [] = Some KDir → ∃ es, t = Dir es.
Proof. destruct t; [done|eauto]. Qed.

Lemma stat_cons es c k :
  stat (Dir es) (c :: k) = es !! c ≫= λ n, stat n k.
Proof. unfold stat. simpl. by destruct (es !! c). Qed.

(** Whatever exists hangs below directories only. *)
Lemma stat_prefix t p q x :
  stat t (p ++ q) = Some x → q ≠ [] → stat t p = Some KDir.
Proof.
  unfold stat. rewrite get_app. intros H Hq.
  destruct (get t p) as [n|]; [|done]. simpl in *.
  destruct q as [|c q]; [done|]. by destruct n.
Qed.

Lemma stat_below_none t p q :
  stat t p = None → stat t (p ++ q) = None.
Proof.
  unfold stat. rewrite get_app. by destruct (get t p).
Qed.

Lemma stat_removelast t k x :
  stat t k = Some x → k ≠ [] → stat t (removelast k) = Some KDir.
Proof.
  intros H Hk. rewrite (app_removelast_last "" Hk) in H.
  by eapply stat_prefix.
Qed.

Lemma stat_step t cur c :
  stat t cur = Some KDir → special c = true →
  stat t (step cur c) = Some KDir.
Proof.
  intros H Hc. unfold step, special in *.
  destruct (bool_decide (c = "") || bool_decide (c = ".")); [done|].
  destruct (bool_decide (c = "..")); [|done].
  destruct (decide (cur = [])) as [->|Hn]; [done|].
  by eapply stat_removelast.
Qed.

Lemma step_name cur c : special c = false → step cur c = cur ++ [c].
Proof.
  unfold special, step. intros H.
  destruct (bool_decide (c = "") || bool_decide (c = ".")); [done|].
  by destruct (bool_decide (c = "..")).
Qed.

Lemma put_two es c c' k v :
  put (Dir es) (c :: c' :: k) v =
    match es !! c with
    | Some n => Dir (<[c := put n (c' :: k) v]> es)
    | None => Dir es
    end.
Proof. done. Qed.

Lemma del_two es c c' k :
  del (Dir es) (c :: c' :: k) =
    match es !! c with
    | Some n => Dir (<[c := del n (c' :: k)]> es)
    | None => Dir es
    end.
Proof. done. Qed.

Lemma kind_of_put t k v : k ≠ [] → kind_of (put t k v) = kind_of t.
Proof.
  destruct k as [|c [|c' k]]; [done|..]; intros _;
    destruct t as [|es]; try done.
  rewrite put_two. by destruct (es !! c).
Qed.

Lemma kind_of_del t k : kind_of (del t k) = kind_of t.
Proof.
  destruct k as [|c [|c' k]]; [done|..];
    destruct t as [|es]; try done.
  rewrite del_two. by destruct (es !! c).
Qed.

(** Binding an entry changes nothing outside of it. *)
Lemma stat_put_other t k v q :
  ¬ k `prefix_of` q → stat (put t k v) q = stat t q.
Proof.
  revert t q. induction k as [|c k IH]; intros t q Hp.
  { destruct Hp. apply prefix_nil. }
  destruct q as [|c' q].
  { rewrite !stat_nil. by rewrite kind_of_put. }
  destruct t as [|es]; [done|].
  destruct k as [|c2 k].
  - simpl. rewrite !stat_cons.
    rewrite lookup_insert_ne; [done|].
    intros ->. apply Hp. apply prefix_cons, prefix_nil.
  - rewrite put_two. destruct (es !! c) as [n|] eqn:E; [|done].
    rewrite !stat_cons. destruct (decide (c = c')) as [->|Hc].
    + rewrite lookup_insert_eq, E. simpl. apply IH.
      intros Hq. apply Hp. by apply prefix_cons.
    + by rewrite lookup_insert_ne.
Qed.

Lemma stat_del_other t k q :
  ¬ k `prefix_of` q → stat (del t k) q = stat t q.
Proof.
  revert t q. induction k as [|c k IH]; intros t q Hp.
  { destruct Hp. apply prefix_nil. }
  destruct q as [|c' q].
  { rewrite !stat_nil. by rewrite kind_of_del. }
  destruct t as [|es]; [done|].
  destruct k as [|c2 k].
  - simpl. rewrite !stat_cons.
    rewrite lookup_delete_ne; [done|].
    intros ->. apply Hp. apply prefix_cons, prefix_nil.
  - rewrite del_two. destruct (es !! c) as [n|] eqn:E; [|done].
    rewrite !stat_cons. destruct (decide (c = c')) as [->|Hc].
    + rewrite lookup_insert_eq, E. simpl. apply IH.
      intros Hq. apply Hp. by apply prefix_cons.
    + by rewrite lookup_insert_ne.
Qed.

(** Below a bound entry there is the new node, when its parent was a
    directory; otherwise the tree is as before. *)
Lemma get_put_below t k v r :
  get (put t k v) (k ++ r) = get v r
  ∨ get (put t k v) (k ++ r) = get t (k ++ r).
Proof.
  revert t. induction k as [|c k IH]; intros t; [by left|].
  destruct t as [|es]; [by right|].
  destruct k as [|c2 k].
  - left. simpl. by rewrite lookup_insert_eq.
  - rewrite put_two. destruct (es !! c) as [n|] eqn:E; [|by right].
    change ((c :: c2 :: k) ++ r) with (c :: (c2 :: k) ++ r).
    simpl get at 1 3. rewrite lookup_insert_eq.
    simpl get at 2 4. rewrite E. apply IH.
Qed.

Lemma get_put_eq t p c v :
  stat t p = Some KDir → get (put t (p ++ [c]) v) (p ++ [c]) = Some v.
Proof.
  revert t. induction p as [|a p IH]; intros t H.
  - apply stat_dir_inv in H as [es ->]. simpl. by rewrite lookup_insert_eq.
  - destruct t as [|es]; [done|]. rewrite stat_cons in H.
    destruct (es !! a) as [n|] eqn:E; [|done]. simpl in H.
    change ((a :: p) ++ [c]) with (a :: (p ++ [c])).
    destruct (p ++ [c]) as [|c2 k] eqn:Ek.
    { by destruct p. }
    rewrite put_two, E, get_cons, lookup_insert_eq.
    by apply IH.
Qed.

Lemma get_del_below t k r : k ≠ [] → get (del t k) (k ++ r) = None.
Proof.
  revert t. induction k as [|c k IH]; intros t Hk; [done|].
  destruct t as [|es]; [done|].
  destruct k as [|c2 k].
  - simpl. by rewrite lookup_delete_eq.
  - rewrite del_two. 
    change ((c :: c2 :: k) ++ r) with (c :: (c2 :: k) ++ r).
    destruct (es !! c) as [n|] eqn:E.
    + simpl get. rewrite lookup_insert_eq. by apply IH.
    + simpl get. by rewrite E.
Qed.

(** ** NUL bytes *)

Lemma has_nul_app a b : has_nul (a +:+ b) = has_nul a || has_nul b.
Proof.
  induction a as [|c a IH]; [by rewrite append_nil|].
  rewrite append_cons. simpl. rewrite IH. by rewrite orb_assoc.
Qed.

Lemma has_nul_split p :
  has_nul p = false ↔ Forall (λ c, has_nul c = false) (split_slash p).
Proof.
  induction p as [|c p IH]; simpl.
  - split; [by repeat constructor|done].
  - destruct (decide (c = "/"%char)) as [->|Hc].
    + rewrite (bool_decide_false (_ = Ascii.zero)) by done.
      rewrite bool_decide_true by done. simpl. rewrite IH. split.
      * by constructor.
      * by inversion 1.
    + rewrite (bool_decide_false (c = "/"%char)) by done.
      destruct (split_slash p) as [|x xs] eqn:E.
      { by pose proof (split_slash_nonempty p). }
      rewrite orb_false_iff, IH. split.
      * intros [H1 H2]. inversion H2; subst. constructor; [|done].
        simpl. by rewrite H1.
      * inversion 1 as [|? ? H1 H2]; subst. simpl in H1.
        apply orb_false_iff in H1 as [H1 H1']. split; [done|].
        by constructor.
Qed.

Lemma has_nul_drop n p : has_nul p = false → has_nul (drop_chars n p) = false.
Proof.
  revert p. induction n as [|n IH]; intros p; [by destruct p|].
  destruct p as [|c p]; [done|]. simpl.
  intros [_ H]%orb_false_iff. by apply IH.
Qed.

Lemma has_nul_basename p : has_nul p = false → has_nul (basename p) = false.
Proof. apply has_nul_drop. Qed.

Lemma has_nul_join a b :
  has_nul a = false → has_nul b = false → has_nul (join a b) = false.
Proof.
  intros Ha Hb. unfold join. destruct (startswith_slash b); [done|].
  destruct (_ || _); rewrite !has_nul_app, ?Ha, ?Hb; done.
Qed.

(** ** Walking *)

Lemma refused_empty o k : refused o k "" = None.
Proof. done. Qed.

Lemma walk_app o t cur xs ys :
  walk o t cur (xs ++ ys) =
    match walk o t cur xs with
    | inl e => inl e
    | inr k => walk o t k ys
    end.
Proof.
  revert cur. induction xs as [|c xs IH]; intros cur; [done|].
  simpl. destruct (stat t cur) as [[]|]; auto.
  destruct (refused o cur c); auto.
Qed.

Lemma walk_one o t k c :
  walk o t k [c] =
    match stat t k with
    | None => inl ENOENT
    | Some (KFile _) => inl ENOTDIR
    | Some KDir => match refused o k c with
                   | Some e => inl e
                   | None => inr (step k c)
                   end
    end.
Proof. done. Qed.

Lemma walk_snoc o t cur cs c k :
  walk o t cur (cs ++ [c]) = inr k →
  ∃ k0, walk o t cur cs = inr k0 ∧ stat t k0 = Some KDir
        ∧ refused o k0 c = None ∧ k = step k0 c.
Proof.
  rewrite walk_app. destruct (walk o t cur cs) as [|k0]; [done|].
  rewrite walk_one. destruct (stat t k0) as [[]|] eqn:E; [done| |done].
  destruct (refused o k0 c) eqn:R; [done|].
  intros [= <-]. eauto.
Qed.

(** A walk that succeeds has looked at directories only, so it succeeds
    wherever these are still directories. *)
Lemma walk_mono o t t' cur cs k :
  (∀ q, stat t q = Some KDir → stat t' q = Some KDir) →
  walk o t cur cs = inr k → walk o t' cur cs = inr k.
Proof.
  intros Hd. revert cur. induction cs as [|c cs IH]; intros cur; [done|].
  simpl. destruct (stat t cur) as [[]|] eqn:E; [done| |done].
  rewrite (Hd _ E). destruct (refused o cur c); [done|]. apply IH.
Qed.

(** Slashes at the end ask for a directory and lead nowhere else. *)
Lemma walk_slashes o t k n :
  stat t k = Some KDir → walk o t k (replicate n "") = inr k.
Proof. intros Hk. induction n as [|n IH]; [done|]. simpl. by rewrite Hk. Qed.

Lemma walk_slashes_inv o t k n k' :
  walk o t k (replicate n "") = inr k' → k' = k.
Proof.
  induction n as [|n IH]; simpl; [congruence|].
  destruct (stat t k) as [[]|]; [done| |done]. apply IH.
Qed.


(** ** Growing trees *)

Lemma grows_refl t : grows t t.
Proof. intros q. destruct (stat t q); auto. Qed.

Lemma grows_some t t' q x : grows t t' → stat t q = Some x → stat t' q = Some x.
Proof. intros H E. specialize (H q). by rewrite E in H. Qed.

Lemma grows_trans t1 t2 t3 : grows t1 t2 → grows t2 t3 → grows t1 t3.
Proof.
  intros H12 H23 q. specialize (H12 q). specialize (H23 q).
  destruct (stat t1 q) as [x|].
  - by rewrite H12 in H23.
  - destruct H12 as [E|E]; rewrite E in H23; auto.
Qed.

Lemma grows_file t t' q d :
  grows t t' → stat t' q = Some (KFile d) → stat t q = Some (KFile d).
Proof.
  intros H E. specialize (H q). destruct (stat t q) as [x|]; [congruence|].
  destruct H; congruence.
Qed.

Lemma grows_mkdir t k :
  stat t k = None → grows t (put t k (Dir ∅)).
Proof.
  intros Hk q. destruct (decide (k `prefix_of` q)) as [[r ->]|Hn].
  - rewrite (stat_below_none _ _ r Hk). unfold stat.
    destruct (get_put_below t k (Dir ∅) r) as [-> | ->].
    + destruct r; [by right|left]. simpl. by rewrite lookup_empty.
    + left. apply (stat_below_none _ _ r Hk).
  - rewrite stat_put_other by done. destruct (stat t q); auto.
Qed.

(** ** [os.makedirs] *)

Lemma mkwalk_grows o t cur cs r t' :
  mkwalk o t cur cs = (r, t') → grows t t'.
Proof.
  revert t cur. induction cs as [|c cs IH]; intros t cur.
  - intros [= _ <-]. apply grows_refl.
  - simpl. destruct (has_nul c); [intros [= _ <-]; apply grows_refl|].
    destruct (stat t cur) as [[]|];
      [intros [= _ <-]; apply grows_refl| |intros [= _ <-]; apply grows_refl].
    destruct (refused o cur c); [intros [= _ <-]; apply grows_refl|].
    destruct (stat t (step cur c)) eqn:E; [apply IH|].
    destruct (o (Mkdir (step cur c))); [intros [= _ <-]; apply grows_refl|].
    intros H%IH. eapply grows_trans; [|done]. by apply grows_mkdir.
Qed.

Lemma mkwalk_walk o t cur cs k t' :
  mkwalk o t cur cs = (inr k, t') → walk o t' cur cs = inr k.
Proof.
  revert t cur. induction cs as [|c cs IH]; intros t cur.
  - by intros [= <- <-].
  - simpl. destruct (has_nul c); [done|].
    destruct (stat t cur) as [[]|] eqn:Ec; [done| |done].
    destruct (refused o cur c); [done|].
    intros H.
    assert (stat t' cur = Some KDir) as ->.
    { destruct (stat t (step cur c)) eqn:E.
      - eapply grows_some; [eapply mkwalk_grows|]; done.
      - destruct (o (Mkdir (step cur c))); [done|].
        eapply grows_some; [eapply mkwalk_grows; exact H|].
        eapply grows_some; [by apply grows_mkdir|done]. }
    destruct (stat t (step cur c)); [by eapply IH|].
    destruct (o (Mkdir (step cur c))); [done|]. by eapply IH.
Qed.

(** A creation that succeeds has met no NUL byte. *)
Lemma mkwalk_no_nul o t cur cs k t' :
  mkwalk o t cur cs = (inr k, t') → Forall (λ c, has_nul c = false) cs.
Proof.
  revert t cur. induction cs as [|c cs IH]; intros t cur; [by constructor|].
  simpl. destruct (has_nul c) eqn:N; [done|].
  destruct (stat t cur) as [[]|]; [done| |done].
  destruct (refused o cur c); [done|].
  destruct (stat t (step cur c)).
  - intros H%IH. by constructor.
  - destruct (o (Mkdir (step cur c))); [done|].
    intros H%IH. by constructor.
Qed.

(** Where the whole path is there already, nothing is created. *)
Lemma mkwalk_existing o t cur cs k :
  Forall (λ c, has_nul c = false) cs →
  walk o t cur cs = inr k → is_Some (stat t k) →
  mkwalk o t cur cs = (inr k, t).
Proof.
  intros Hn. revert cur. induction Hn as [|c cs Hc Hn IH]; intros cur.
  - by intros [= <-].
  - simpl. rewrite Hc. destruct (stat t cur) as [[]|]; [done| |done].
    destruct (refused o cur c); [done|].
    intros H Hk.
    assert (is_Some (stat t (step cur c))) as [x ->]; [|by apply IH].
    destruct cs as [|c2 cs]; [by injection H as ->|].
    simpl in H. destruct (stat t (step cur c)); [eauto|done].
Qed.

Lemma mkwalk_app o t cur xs ys :
  mkwalk o t cur (xs ++ ys) =
    match mkwalk o t cur xs with
    | (inl e, t') => (inl e, t')
    | (inr k, t') => mkwalk o t' k ys
    end.
Proof.
  revert t cur. induction xs as [|c xs IH]; intros t cur; [done|].
  simpl. destruct (has_nul c); [done|].
  destruct (stat t cur) as [[]|]; [done| |done].
  destruct (refused o cur c); [done|].
  destruct (stat t (step cur c)); [apply IH|].
  destruct (o (Mkdir (step cur c))); [done|]. apply IH.
Qed.

Lemma with_tree_id fs : with_tree fs (tree fs) = fs.
Proof. by destruct fs. Qed.

Lemma strip_replicate cs : ∃ n, cs = strip cs ++ replicate n "".
Proof.
  induction cs as [|c cs [n IH]]; [by exists 0|].
  simpl. destruct (strip cs) as [|x l] eqn:E.
  - case_bool_decide as Hc.
    + exists (S n). simpl. rewrite Hc. f_equal. by rewrite IH at 1.
    + exists n. simpl. f_equal. by rewrite IH at 1.
  - exists n. simpl. f_equal. by rewrite IH at 1.
Qed.

Lemma has_nul_strip p :
  has_nul p = false ↔ Forall (λ c, has_nul c = false) (strip (split_slash p)).
Proof.
  rewrite has_nul_split. destruct (strip_replicate (split_slash p)) as [n E].
  rewrite E at 1. rewrite Forall_app. split; [by intros []|].
  intros H. split; [done|]. by apply Forall_replicate.
Qed.

Lemma makedirs_grows fs p r fs' :
  makedirs_fs fs p = (r, fs') →
  grows (tree fs) (tree fs') ∧ cwd fs' = cwd fs ∧ denied fs' = denied fs.
Proof.
  unfold makedirs_fs. case_bool_decide.
  { intros [= _ <-]. split; [apply grows_refl|done]. }
  destruct (mkwalk _ _ _ _) as [o t'] eqn:E.
  apply mkwalk_grows in E.
  destruct o as [e|k]; [by intros [= _ <-]|].
  destruct (stat t' k) as [[]|]; by intros [= _ <-].
Qed.

Lemma resolve_grows fs fs' p k :
  grows (tree fs) (tree fs') → cwd fs' = cwd fs → denied fs' = denied fs →
  resolve fs p = inr k → resolve fs' p = inr k.
Proof.
  intros Hg Hc Hd. unfold resolve, start. rewrite Hc, Hd.
  case_bool_decide; [done|].
  apply walk_mono. intros q. by apply grows_some.
Qed.

Lemma os_stat_grows fs fs' p x :
  grows (tree fs) (tree fs') → cwd fs' = cwd fs → denied fs' = denied fs →
  os_stat fs p = inr x → os_stat fs' p = inr x.
Proof.
  intros Hg Hc Hd. unfold os_stat. destruct (has_nul p); [done|].
  destruct (resolve fs p) as [|k] eqn:E; [done|].
  rewrite (resolve_grows _ _ _ _ Hg Hc Hd E).
  destruct (stat (tree fs) k) as [y|] eqn:Ek; [|done].
  by rewrite (grows_some _ _ _ _ Hg Ek).
Qed.

Lemma makedirs_ok fs p fs' :
  makedirs_fs fs p = (None, fs') →
  p ≠ "" ∧ has_nul p = false
  ∧ ∃ k, resolve fs' p = inr k ∧ stat (tree fs') k = Some KDir.
Proof.
  unfold makedirs_fs, resolve.
  case_bool_decide as Hp; [done|].
  destruct (mkwalk _ _ _ _) as [o t'] eqn:E.
  destruct o as [e|k]; [done|].
  destruct (stat t' k) as [[]|] eqn:Ek; [done| |done].
  intros [= <-]. split; [done|]. split.
  { apply has_nul_strip. by eapply mkwalk_no_nul. }
  exists k. split; [|done]. simpl. unfold start in *. simpl.
  destruct (strip_replicate (split_slash p)) as [n En].
  rewrite En, walk_app, (mkwalk_walk _ _ _ _ _ _ E).
  by apply walk_slashes.
Qed.

Lemma makedirs_isdir fs p fs' :
  makedirs_fs fs p = (None, fs') → isdir fs' p = true.
Proof.
  intros (_ & Hn & k & Hr & Hk)%makedirs_ok.
  unfold isdir, os_stat. by rewrite Hn, Hr, Hk.
Qed.

(** Pre-existing directories are not an error, and nothing changes. *)
Lemma makedirs_existing fs p :
  isdir fs p = true → makedirs_fs fs p = (None, fs).
Proof.
  unfold makedirs_fs, isdir, os_stat, resolve.
  destruct (has_nul p) eqn:Hn; [done|].
  case_bool_decide; [done|].
  destruct (walk _ _ _ _) as [|k] eqn:E; [done|].
  destruct (stat (tree fs) k) as [[]|] eqn:Ek; [done| |done].
  intros _. destruct (strip_replicate (split_slash p)) as [n En].
  rewrite En, walk_app in E.
  destruct (walk _ _ _ (strip _)) as [|k0] eqn:E0; [done|].
  apply walk_slashes_inv in E as ->.
  rewrite (mkwalk_existing _ _ _ _ _ (proj1 (has_nul_strip p) Hn) E0)
    by (rewrite Ek; eauto).
  by rewrite Ek, with_tree_id.
Qed.

(** ** Locating directory entries *)

Lemma strip_snoc cs c : c ≠ "" → strip (cs ++ [c]) = cs ++ [c].
Proof.
  intros Hc. induction cs as [|x cs IH]; simpl.
  - by rewrite bool_decide_false.
  - rewrite IH. by destruct cs.
Qed.

Lemma special_nonempty c : special c = false → c ≠ "".
Proof. by intros H ->. Qed.

Lemma snoc_inv (l : list string) : l ≠ [] → l = removelast l ++ [List.last l ""].
Proof. apply app_removelast_last. Qed.

Lemma removelast_snoc (l : list string) x : removelast (l ++ [x]) = l.
Proof. apply removelast_last. Qed.

Lemma trailing_snoc p cs c :
  split_slash p = cs ++ [c] → c ≠ "" → trailing p = false.
Proof.
  intros E Hc. unfold trailing. rewrite E, strip_snoc by done.
  by rewrite bool_decide_false by naive_solver.
Qed.

(** A path that resolves to a regular file names an entry: its last
    component is a plain name, the base name, with no slash behind it. *)
Lemma locate_file fs p k d :
  resolve fs p = inr k → stat (tree fs) k = Some (KFile d) →
  ∃ od, parent_of fs p = inr (od, basename p)
        ∧ k = od ++ [basename p]
        ∧ special (basename p) = false
        ∧ trailing p = false
        ∧ refused (denied fs) od (basename p) = None.
Proof.
  unfold resolve, parent_of. case_bool_decide; [done|].
  intros Hw Hk. rewrite basename_last.
  pose proof (snoc_inv _ (split_slash_nonempty p)) as E.
  set (l := List.last (split_slash p) "") in *.
  rewrite E in Hw. apply walk_snoc in Hw as (k0 & Hw & Hd & Hl & ->).
  destruct (special l) eqn:Hs.
  { rewrite (stat_step _ _ _ Hd Hs) in Hk. done. }
  pose proof (special_nonempty _ Hs) as Hl'.
  exists k0. rewrite E, strip_snoc, removelast_snoc, last_snoc, Hw, Hd by done.
  repeat split; [by apply step_name| |done]. by eapply trailing_snoc.
Qed.

Lemma plain_spec c :
  plain c = true → special c = false ∧ rfind_slash c = (-1)%Z.
Proof.
  unfold plain. intros [H1 H2%bool_decide_eq_true]%andb_true_iff.
  split; [by destruct (special c)|done].
Qed.

(** A plain name joined to a directory names an entry of that directory,
    found there when the name may be looked up. *)
Lemma locate_join fs a b k :
  a ≠ "" → plain b = true →
  resolve fs a = inr k → stat (tree fs) k = Some KDir →
  parent_of fs (join a b) = inr (k, b)
  ∧ trailing (join a b) = false
  ∧ resolve fs (join a b) =
      match refused (denied fs) k b with
      | Some e => inl e
      | None => inr (k ++ [b])
      end.
Proof.
  intros Ha [Hs Hb]%plain_spec Hr Hk.
  pose proof (join_nonempty a b Ha) as Hj.
  pose proof (special_nonempty _ Hs) as Hne.
  unfold resolve, parent_of, start in *.
  rewrite (isabs_join a b Ha Hb).
  rewrite bool_decide_false in Hr by done.
  rewrite !bool_decide_false by done.
  assert (∃ xs, split_slash (join a b) = xs ++ [b]
                ∧ walk (denied fs) (tree fs)
                    (if isabs a then [] else cwd fs) xs = inr k)
    as (xs & E & Hw).
  { destruct (split_slash_join a b Ha Hb) as [E|(cs & E1 & E2)].
    - by exists (split_slash a).
    - exists cs. split; [done|]. rewrite E1 in Hr.
      apply walk_snoc in Hr as (k0 & Hw & _ & _ & ->). done. }
  rewrite E, strip_snoc, removelast_snoc, last_snoc, Hw, Hk by done.
  split; [done|]. split; [by eapply trailing_snoc|].
  rewrite walk_app, Hw, walk_one, Hk. by rewrite step_name.
Qed.

(** The base name of a path to a regular file is a plain name. *)
Lemma basename_plain p : special (basename p) = false → plain (basename p) = true.
Proof.
  intros So. unfold plain. rewrite So. simpl. apply bool_decide_eq_true.
  apply basename_noslash.
Qed.

(** ** [os.rename] of a regular file *)

Lemma parent_of_dir fs p d l :
  parent_of fs p = inr (d, l) → stat (tree fs) d = Some KDir.
Proof.
  unfold parent_of. case_bool_decide; [done|].
  destruct (walk _ _ _ _) as [|k]; [done|].
  destruct (stat (tree fs) k) as [[]|] eqn:E; [done| |done].
  by intros [= <- _].
Qed.

Lemma file_not_above t s c q x :
  get t s = Some (File c) → s `prefix_of` q → stat t q = Some x → q = s.
Proof.
  intros Hs [r ->] Hq. destruct r as [|a r]; [by rewrite app_nil_r|].
  pose proof (stat_prefix t s (a :: r) x Hq) as H.
  unfold stat in H. rewrite Hs in H. by specialize (H ltac:(done)).
Qed.

Lemma file_not_dir t s c :
  get t s = Some (File c) → stat t s ≠ Some KDir.
Proof. unfold stat. by intros ->. Qed.

Lemma not_dir_not_above t d q :
  stat t d ≠ Some KDir → d `prefix_of` q → stat t q ≠ Some KDir.
Proof.
  intros Hd [r ->] Hq. destruct r as [|a r]; [by rewrite app_nil_r in Hq|].
  by pose proof (stat_prefix t d (a :: r) _ Hq ltac:(done)).
Qed.

(** Moving a regular file from [s] to the entry [nl] of the directory
    [nd], where no directory is. *)
Lemma relink_file_dirs t s d c q :
  get t s = Some (File c) → stat t d ≠ Some KDir →
  stat t q = Some KDir → stat (relink t s d (File c)) q = Some KDir.
Proof.
  intros Hs Hd Hq. unfold relink.
  rewrite stat_put_other by (intros Hp; by eapply not_dir_not_above).
  rewrite stat_del_other; [done|].
  intros Hp. pose proof (file_not_above _ _ _ _ _ Hs Hp Hq) as E.
  subst q. by eapply file_not_dir.
Qed.

Lemma relink_file_target t s nd nl c :
  get t s = Some (File c) → stat t nd = Some KDir →
  stat (relink t s (nd ++ [nl]) (File c)) (nd ++ [nl]) = Some (KFile c).
Proof.
  intros Hs Hnd. unfold relink, stat. rewrite get_put_eq; [done|].
  rewrite stat_del_other; [done|].
  intros Hp. pose proof (file_not_above _ _ _ _ _ Hs Hp Hnd) as E.
  subst nd. by eapply file_not_dir.
Qed.

Lemma relink_file_source t s d c :
  get t s = Some (File c) → stat t d ≠ Some KDir → s ≠ [] → s ≠ d →
  stat (relink t s d (File c)) s = None.
Proof.
  intros Hs Hd Hnil Hne. unfold relink. rewrite stat_put_other.
  - unfold stat. rewrite <- (app_nil_r s) at 2.
    by rewrite get_del_below.
  - intros [r E]. destruct r as [|a r].
    + rewrite app_nil_r in E. done.
    + apply Hd. eapply (stat_prefix t d (a :: r)); [|done].
      rewrite <- E. unfold stat. by rewrite Hs.
Qed.

(** What [os.rename] does to a regular file, step by step: the system
    may deny the crossing, either lookup, or the move; a directory at the
    target is [EISDIR]; the file that is the target already stays. *)
Lemma rename_file fs old new od ol nd nl c :
  has_nul old = false → has_nul new = false →
  parent_of fs old = inr (od, ol) → parent_of fs new = inr (nd, nl) →
  special ol = false → special nl = false →
  trailing old = false → trailing new = false →
  get (tree fs) (od ++ [ol]) = Some (File c) →
  rename_fs fs old new =
    match denied fs (Cross od nd) with
    | Some e => inl (OSError e)
    | None =>
        match refused (denied fs) od ol with
        | Some e => inl (OSError e)
        | None =>
            match refused (denied fs) nd nl with
            | Some e => inl (OSError e)
            | None =>
                match stat (tree fs) (nd ++ [nl]) with
                | Some KDir => inl (OSError EISDIR)
                | _ =>
                    if bool_decide (od ++ [ol] = nd ++ [nl]) then inr fs
                    else
                      match denied fs (Move (od ++ [ol]) (nd ++ [nl])) with
                      | Some e => inl (OSError e)
                      | None =>
                          inr (move_file fs (od ++ [ol]) (nd ++ [nl]) c)
                      end
                end
            end
        end
    end.
Proof.
  intros No Nn Ho Hn So Sn To Tn Hg. unfold rename_fs, rename_sys, granted.
  rewrite No, Nn, Ho, Hn, So, Sn, Hg, To, Tn. simpl.
  destruct (denied fs (Cross od nd)); [done|].
  destruct (refused (denied fs) od ol); [done|].
  destruct (refused (denied fs) nd nl); [done|].
  destruct (stat (tree fs) (nd ++ [nl])) as [[]|]; [|done|];
    (case_bool_decide; [done|]);
    by destruct (denied fs (Move _ _)).
Qed.

(** ** What [os.stat] sees *)

Lemma os_stat_inv fs p x :
  os_stat fs p = inr x ↔
  has_nul p = false ∧ ∃ k, resolve fs p = inr k ∧ stat (tree fs) k = Some x.
Proof.
  unfold os_stat. split.
  - destruct (has_nul p); [done|].
    destruct (resolve fs p) as [|k]; [done|].
    destruct (stat (tree fs) k) eqn:E; [|done]. intros [= <-]. eauto.
  - intros (-> & k & -> & ->). done.
Qed.

Lemma read_file_inv fs p c :
  read_file fs p = Some c ↔ os_stat fs p = inr (KFile c).
Proof.
  unfold read_file. destruct (os_stat fs p) as [|[]]; split; congruence.
Qed.

Lemma isdir_inv fs p : isdir fs p = true ↔ os_stat fs p = inr KDir.
Proof.
  unfold isdir. destruct (os_stat fs p) as [|[]]; split; congruence.
Qed.


Lemma resolve_nonempty fs p k : resolve fs p = inr k → p ≠ "".
Proof. unfold resolve. by case_bool_decide. Qed.

(** ** Directories that stay *)

Lemma resolve_kept fs fs' p k :
  (∀ q, stat (tree fs) q = Some KDir → stat (tree fs') q = Some KDir) →
  cwd fs' = cwd fs → denied fs' = denied fs →
  resolve fs p = inr k → resolve fs' p = inr k.
Proof.
  intros Hd Hc Ho. unfold resolve, start. rewrite Hc, Ho.
  case_bool_decide; [done|]. by apply walk_mono.
Qed.

Lemma os_stat_kept fs fs' p :
  (∀ q, stat (tree fs) q = Some KDir → stat (tree fs') q = Some KDir) →
  cwd fs' = cwd fs → denied fs' = denied fs →
  os_stat fs p = inr KDir → os_stat fs' p = inr KDir.
Proof.
  intros Hd Hc Ho (Hn & k & Hr & Hk)%os_stat_inv. apply os_stat_inv.
  split; [done|]. exists k. split; [|by apply Hd]. by eapply resolve_kept.
Qed.

(** ** Moving a downloaded file into the destination directory *)

(** The move of a regular file into a directory, once [os.rename] has
    made it. *)
Lemma rename_into fs p raw c fs' :
  read_file fs p = Some c →
  isdir fs raw = true →
  rename_fs fs p (join raw (basename p)) = inr fs' →
  read_file fs' (join raw (basename p)) = Some c
  ∧ (samefile fs p (join raw (basename p)) = false →
     path_exists fs' p = false)
  ∧ cwd fs' = cwd fs
  ∧ denied fs' = denied fs
  ∧ ∀ q, stat (tree fs) q = Some KDir → stat (tree fs') q = Some KDir.
Proof.
  intros (Np & s & Hrs & Hs)%read_file_inv%os_stat_inv
    (Nr & k & Hrk & Hk)%isdir_inv%os_stat_inv.
  pose proof (resolve_nonempty _ _ _ Hrk) as Hraw.
  destruct (locate_file _ _ _ _ Hrs Hs) as (od & Ho & -> & So & To & Ro).
  set (b := basename p) in *.
  pose proof (basename_plain p So) as Hb. fold b in Hb.
  destruct (locate_join _ _ _ _ Hraw Hb Hrk Hk) as (Hn & Tn & Hrd).
  assert (has_nul (join raw b) = false) as Nq.
  { apply has_nul_join; [done|]. by apply has_nul_basename. }
  assert (get (tree fs) (od ++ [b]) = Some (File c)) as Hg.
  { unfold stat in Hs. destruct (get (tree fs) (od ++ [b])) as [[]|];
      simpl in Hs; congruence. }
  rewrite (rename_file _ _ _ _ _ _ _ _ Np Nq Ho Hn So So To Tn Hg), Ro.
  destruct (denied fs (Cross od k)); [done|].
  destruct (refused (denied fs) k b) eqn:Rn; [done|].
  destruct (stat (tree fs) (k ++ [b])) as [x|] eqn:Ed.
  - destruct x as [c0|]; [|done].
    case_bool_decide as Hsame.
    + intros [= <-]. split; [|split; [|done]].
      * apply read_file_inv, os_stat_inv. split; [done|]. exists (k ++ [b]).
        split; [done|]. by rewrite <- Hsame.
      * unfold samefile. rewrite Hrs, Hrd.
        by rewrite bool_decide_true.
    + destruct (denied fs (Move _ _)); [done|]. intros [= <-].
      assert (stat (tree fs) (k ++ [b]) ≠ Some KDir) as Hd by congruence.
      assert (∀ q, stat (tree fs) q = Some KDir →
                   stat (tree (move_file fs (od ++ [b]) (k ++ [b]) c)) q
                   = Some KDir) as Hkept.
      { intros q. by apply relink_file_dirs. }
      split; [|split; [|done]].
      * apply read_file_inv, os_stat_inv. split; [done|]. exists (k ++ [b]).
        split; [by eapply resolve_kept|]. by apply relink_file_target.
      * intros _. unfold path_exists, os_stat. rewrite Np.
        rewrite (resolve_kept fs _ p (od ++ [b]) Hkept eq_refl eq_refl Hrs).
        simpl. rewrite relink_file_source; try done. by destruct od.
  - case_bool_decide as Hsame.
    { rewrite <- Hsame in Ed. congruence. }
    destruct (denied fs (Move _ _)); [done|]. intros [= <-].
    assert (stat (tree fs) (k ++ [b]) ≠ Some KDir) as Hd by congruence.
    assert (∀ q, stat (tree fs) q = Some KDir →
                 stat (tree (move_file fs (od ++ [b]) (k ++ [b]) c)) q
                 = Some KDir) as Hkept.
    { intros q. by apply relink_file_dirs. }
    split; [|split; [|done]].
    + apply read_file_inv, os_stat_inv. split; [done|]. exists (k ++ [b]).
      split; [by eapply resolve_kept|]. by apply relink_file_target.
    + intros _. unfold path_exists, os_stat. rewrite Np.
      rewrite (resolve_kept fs _ p (od ++ [b]) Hkept eq_refl eq_refl Hrs).
      simpl. rewrite relink_file_source; try done. by destruct od.
Qed.

(** Where a regular file is at the target already, [os.rename] fails
    only if the system denies a request; the tree decides nothing. *)
Lemma rename_onto_file fs p raw c c0 :
  read_file fs p = Some c →
  isdir fs raw = true →
  read_file fs (join raw (basename p)) = Some c0 →
  match rename_fs fs p (join raw (basename p)) with
  | inr _ => True
  | inl x => ∃ r e, denied fs r = Some e ∧ x = OSError e
  end.
Proof.
  intros (Np & s & Hrs & Hs)%read_file_inv%os_stat_inv
    (Nr & k & Hrk & Hk)%isdir_inv%os_stat_inv
    (Nq & d & Hrd' & Hd)%read_file_inv%os_stat_inv.
  pose proof (resolve_nonempty _ _ _ Hrk) as Hraw.
  destruct (locate_file _ _ _ _ Hrs Hs) as (od & Ho & -> & So & To & Ro).
  set (b := basename p) in *.
  pose proof (basename_plain p So) as Hb. fold b in Hb.
  destruct (locate_join _ _ _ _ Hraw Hb Hrk Hk) as (Hn & Tn & Hrd).
  rewrite Hrd in Hrd'.
  destruct (refused (denied fs) k b) eqn:Rn; [done|]. injection Hrd' as <-.
  assert (get (tree fs) (od ++ [b]) = Some (File c)) as Hg.
  { unfold stat in Hs. destruct (get (tree fs) (od ++ [b])) as [[]|];
      simpl in Hs; congruence. }
  rewrite (rename_file _ _ _ _ _ _ _ _ Np Nq Ho Hn So So To Tn Hg), Ro, Rn, Hd.
  destruct (denied fs (Cross od k)) eqn:E1; [eauto|].
  case_bool_decide; [done|].
  destruct (denied fs (Move _ _)) eqn:E2; [eauto|done].
Qed.

(** ** Running [download_data] *)

Lemma download_data_run raw f w :
  raw ≠ "" →
  download_data raw (Some f) w =
    let '(r, fs1) := f (w_fs w) in
    let w2 := emit (Called [] r) (set_fs fs1 (emit downloading w)) in
    match r with
    | inl e => (inl e, w2)
    | inr p =>
        let '(o, fs2) := makedirs_fs fs1 raw in
        let w3 := emit (Makedirs raw o) (set_fs fs2 w2) in
        match o with
        | Some e => (inl e, w3)
        | None =>
            let q := join raw (basename p) in
            match rename_fs fs2 p q with
            | inl e => (inl e, emit (Rename p q (Some e)) w3)
            | inr fs3 =>
                (inr q,
                 emit (saved_to q) (emit (Rename p q None) (set_fs fs3 w3)))
            end
        end
    end.
Proof.
  intros Hraw. unfold download_data. rewrite bool_decide_false by done.
  unfold bind, logging_info, call, os_makedirs, os_rename, ret. simpl.
  destruct (f (w_fs w)) as [[e|p] fs1]; [done|]. simpl.
  destruct (makedirs_fs fs1 raw) as [[e|] fs2]; [done|]. simpl.
  destruct (rename_fs fs2 p _) as [e|fs3]; done.
Qed.

(** A regular file is not moved onto a directory. *)
Lemma rename_onto_dir fs p raw c :
  read_file fs p = Some c →
  isdir fs raw = true →
  isdir fs (join raw (basename p)) = true →
  ∃ x, rename_fs fs p (join raw (basename p)) = inl x.
Proof.
  intros (Np & s & Hrs & Hs)%read_file_inv%os_stat_inv
    (Nr & k & Hrk & Hk)%isdir_inv%os_stat_inv
    (Nq & d & Hd1 & Hd2)%isdir_inv%os_stat_inv.
  pose proof (resolve_nonempty _ _ _ Hrk) as Hraw.
  destruct (locate_file _ _ _ _ Hrs Hs) as (od & Ho & -> & So & To & Ro).
  set (b := basename p) in *.
  pose proof (basename_plain p So) as Hb. fold b in Hb.
  destruct (locate_join _ _ _ _ Hraw Hb Hrk Hk) as (Hn & Tn & Hrd).
  rewrite Hrd in Hd1.
  destruct (refused (denied fs) k b) eqn:Rn; [done|]. injection Hd1 as <-.
  assert (get (tree fs) (od ++ [b]) = Some (File c)) as Hg.
  { unfold stat in Hs. destruct (get (tree fs) (od ++ [b])) as [[]|];
      simpl in Hs; congruence. }
  rewrite (rename_file _ _ _ _ _ _ _ _ Np Nq Ho Hn So So To Tn Hg), Ro, Rn, Hd2.
  destruct (denied fs (Cross od k)); eauto.
Qed.

(** ** What a successful [os.rename] tells *)

Lemma trailing_replicate p n :
  split_slash p = strip (split_slash p) ++ replicate n "" →
  trailing p = bool_decide (n ≠ 0).
Proof.
  intros E. unfold trailing. destruct n as [|n].
  - simpl in E. rewrite app_nil_r in E. rewrite <- E.
    by rewrite !bool_decide_false by naive_solver.
  - rewrite !bool_decide_true; [done..|].
    intros E'. rewrite <- E' in E at 1.
    apply (f_equal length) in E. rewrite length_app in E. simpl in E. lia.
Qed.

Lemma parent_of_inv fs p d l :
  parent_of fs p = inr (d, l) → special l = false →
  p ≠ ""
  ∧ ∃ n, split_slash p = (removelast (strip (split_slash p)) ++ [l])
                         ++ replicate n ""
         ∧ trailing p = bool_decide (n ≠ 0)
         ∧ walk (denied fs) (tree fs) (start fs p)
             (removelast (strip (split_slash p))) = inr d
         ∧ stat (tree fs) d = Some KDir.
Proof.
  unfold parent_of. case_bool_decide; [done|].
  destruct (walk _ _ _ _) as [|k] eqn:Hw; [done|].
  destruct (stat (tree fs) k) as [[]|] eqn:Hk; [done| |done].
  intros [= <- <-] Hs. split; [done|].
  destruct (strip_replicate (split_slash p)) as [n E].
  exists n. rewrite <- snoc_inv; [by eauto using trailing_replicate|].
  intros E'. by rewrite E' in Hs.
Qed.

(** A move that was made: both paths name entries that may be looked up,
    the source entry was there, and is at the target afterwards. *)
Lemma rename_ok fs old new fs' :
  rename_fs fs old new = inr fs' →
  ∃ s d n,
    place fs old = Some s ∧ place fs new = Some d
    ∧ get (tree fs) s = Some n
    ∧ (trailing old = true → kind_of n = KDir)
    ∧ get (tree fs') d = Some n.
Proof.
  unfold rename_fs, rename_sys, place, granted.
  destruct (has_nul old || has_nul new); [done|].
  destruct (parent_of fs old) as [|[od ol]] eqn:Ho; [done|].
  destruct (parent_of fs new) as [|[nd nl]] eqn:Hn; [done|].
  destruct (denied fs (Cross od nd)); [done|].
  destruct (special ol) eqn:So; [done|].
  destruct (special nl) eqn:Sn; [done|]. simpl.
  destruct (refused (denied fs) od ol); [done|].
  destruct (refused (denied fs) nd nl); [done|].
  pose proof (parent_of_dir _ _ _ _ Hn) as Hnd.
  destruct (get (tree fs) (od ++ [ol])) as [[c|es]|] eqn:Hs; [| |done].
  - destruct (trailing old) eqn:To; [done|].
    destruct (trailing new) eqn:Tn; [done|]. simpl.
    intros H. exists (od ++ [ol]), (nd ++ [nl]), (File c).
    do 4 (split; [done|]).
    assert (fs' = (if bool_decide (od ++ [ol] = nd ++ [nl]) then fs
                   else move_file fs (od ++ [ol]) (nd ++ [nl]) c)) as ->.
    { destruct (stat (tree fs) (nd ++ [nl])) as [[]|]; [|done|];
        (case_bool_decide; [by injection H as <-|]);
        destruct (denied fs (Move _ _)); [done| |done|]; by injection H as <-. }
    case_bool_decide as Hsame; [by rewrite <- Hsame|].
    simpl. unfold relink. apply get_put_eq.
    rewrite stat_del_other; [done|].
    intros Hp. pose proof (file_not_above _ _ _ _ _ Hs Hp Hnd) as E.
    subst nd. by eapply file_not_dir.
  - intros H. exists (od ++ [ol]), (nd ++ [nl]), (Dir es).
    do 4 (split; [done|]).
    case_bool_decide as Hsame; [injection H as <-; by rewrite <- Hsame|].
    case_bool_decide as Hpre; [done|].
    assert (fs' = move_dir fs (od ++ [ol]) (nd ++ [nl]) es) as ->.
    { destruct (denied fs (Move _ _));
        destruct (get (tree fs) (nd ++ [nl])) as [[|es']|]; try done;
        [destruct (bool_decide (dom es' = ∅)); done| |by injection H as <-].
      destruct (bool_decide (dom es' = ∅)); [by injection H as <-|done]. }
    simpl. unfold relink. apply get_put_eq.
    rewrite stat_del_other; [done|].
    intros Hp. apply Hpre. by apply prefix_app_r.
Qed.

(** What else a move that was made tells: no NUL byte in either path,
    both names looked up. *)
Lemma rename_ok_lookup fs old new fs' :
  rename_fs fs old new = inr fs' →
  has_nul old = false ∧ has_nul new = false
  ∧ ∃ od ol nd nl,
      parent_of fs old = inr (od, ol) ∧ parent_of fs new = inr (nd, nl)
      ∧ special ol = false ∧ special nl = false
      ∧ refused (denied fs) od ol = None
      ∧ refused (denied fs) nd nl = None
      ∧ denied fs' = denied fs.
Proof.
  unfold rename_fs, rename_sys, granted.
  destruct (has_nul old); [done|]. destruct (has_nul new); [done|]. simpl.
  destruct (parent_of fs old) as [|[od ol]] eqn:Ho; [done|].
  destruct (parent_of fs new) as [|[nd nl]] eqn:Hn; [done|].
  destruct (denied fs (Cross od nd)); [done|].
  destruct (special ol) eqn:So; [done|].
  destruct (special nl) eqn:Sn; [done|]. simpl.
  destruct (refused (denied fs) od ol) eqn:Ro; [done|].
  destruct (refused (denied fs) nd nl) eqn:Rn; [done|].
  intros H. do 2 (split; [done|]). exists od, ol, nd, nl.
  do 6 (split; [done|]).
  destruct (get (tree fs) (od ++ [ol])) as [[c|es]|]; [| |done].
  - destruct (trailing old || trailing new); [done|].
    destruct (stat (tree fs) (nd ++ [nl])) as [[]|]; [|done|];
      (case_bool_decide; [by injection H as <-|]);
      destruct (denied fs (Move _ _)); [done| |done|]; by injection H as <-.
  - case_bool_decide; [by injection H as <-|].
    case_bool_decide; [done|].
    destruct (denied fs (Move _ _));
      destruct (get (tree fs) (nd ++ [nl])) as [[|es']|]; try done;
      [destruct (bool_decide (dom es' = ∅)); done| |by injection H as <-].
    destruct (bool_decide (dom es' = ∅)); [by injection H as <-|done].
Qed.

(** The entry a path names is what [os.stat] finds, if the name may be
    looked up. *)
Lemma place_exists fs p s n :
  has_nul p = false →
  place fs p = Some s → get (tree fs) s = Some n →
  (∀ d l, parent_of fs p = inr (d, l) → refused (denied fs) d l = None) →
  (trailing p = true → kind_of n = KDir) →
  os_stat fs p = inr (kind_of n).
Proof.
  unfold place. intros Np.
  destruct (parent_of fs p) as [|[d l]] eqn:Hp; [done|].
  destruct (special l) eqn:Hs; [done|]. intros [= <-] Hg Hl Ht.
  destruct (parent_of_inv _ _ _ _ Hp Hs) as (Hne & m & E & Et & Hw & Hd).
  apply os_stat_inv. split; [done|].
  exists (d ++ [l]). split; [|by unfold stat; rewrite Hg].
  unfold resolve. rewrite bool_decide_false by done.
  rewrite E, !walk_app, Hw, walk_one, Hd, (Hl _ _ eq_refl), step_name by done.
  destruct m as [|m]; [done|]. apply walk_slashes.
  unfold stat. rewrite Hg. simpl. f_equal. apply Ht. by rewrite Et.
Qed.

(** [os.rename] fails on a source path that does not exist. *)
Lemma rename_missing fs old new :
  path_exists fs old = false → ∃ e, rename_fs fs old new = inl e.
Proof.
  intros Hno. destruct (rename_fs fs old new) as [e|fs'] eqn:E; [eauto|].
  pose proof (rename_ok_lookup _ _ _ _ E)
    as (No & _ & od & ol & nd & nl & Ho & _ & _ & _ & Ro & _).
  apply rename_ok in E as (s & d & n & Hs & _ & Hg & Ht & _).
  assert (os_stat fs old = inr (kind_of n)) as H.
  { eapply place_exists; try done. intros d' l'. rewrite Ho. by intros [= <- <-]. }
  unfold path_exists in Hno. by rewrite H in Hno.
Qed.

(** ** What [os.rename] does to the tree *)

Lemma get_put_under t p c v r :
  stat t p = Some KDir →
  get (put t (p ++ [c]) v) ((p ++ [c]) ++ r) = get v r.
Proof. intros H. by rewrite get_app, get_put_eq. Qed.

Lemma get_entry t d a r n :
  get t (d ++ a :: r) = Some n →
  ∃ es, get t d = Some (Dir es) ∧ is_Some (es !! a).
Proof.
  rewrite get_app. destruct (get t d) as [[|es]|]; [done| |done].
  simpl. destruct (es !! a) eqn:E; [|done]. eauto.
Qed.

Lemma stat_get_none t k : stat t k = None ↔ get t k = None.
Proof. unfold stat. by destruct (get t k). Qed.

(** What [os.rename] does to the tree, whatever is moved: nothing when
    source and target are one entry; otherwise the source entry is
    unlinked and bound at the target, neither lying below the other. *)
Lemma rename_effect fs old new fs' :
  rename_fs fs old new = inr fs' →
  ∃ s d n,
    place fs old = Some s ∧ place fs new = Some d
    ∧ get (tree fs) s = Some n
    ∧ (s = d ∧ fs' = fs
       ∨ s ≠ d ∧ tree fs' = relink (tree fs) s d n
         ∧ ¬ s `prefix_of` d ∧ ¬ d `prefix_of` s
         ∧ ∃ nd nl, d = nd ++ [nl] ∧ stat (del (tree fs) s) nd = Some KDir).
Proof.
  unfold rename_fs, rename_sys, place, granted.
  destruct (has_nul old || has_nul new); [done|].
  destruct (parent_of fs old) as [|[od ol]] eqn:Ho; [done|].
  destruct (parent_of fs new) as [|[nd nl]] eqn:Hn; [done|].
  destruct (denied fs (Cross od nd)); [done|].
  destruct (special ol) eqn:So; [done|].
  destruct (special nl) eqn:Sn; [done|]. simpl.
  destruct (refused (denied fs) od ol); [done|].
  destruct (refused (denied fs) nd nl); [done|].
  pose proof (parent_of_dir _ _ _ _ Hn) as Hnd.
  set (s := od ++ [ol]). set (d := nd ++ [nl]).
  destruct (get (tree fs) s) as [[c|es]|] eqn:Hs; [| |done].
  - destruct (trailing old || trailing new); [done|].
    intros H. exists s, d, (File c). do 3 (split; [done|]).
    assert (stat (tree fs) d ≠ Some KDir
            ∧ fs' = (if bool_decide (s = d) then fs
                     else move_file fs s d c)) as [Hd ->].
    { destruct (stat (tree fs) d) as [[]|]; [|done|];
        (split; [done|]);
        (case_bool_decide; [by injection H as <-|]);
        destruct (denied fs (Move s d)); [done| |done|];
        by injection H as <-. }
    case_bool_decide as Hsame; [by left|]. right.
    assert (¬ s `prefix_of` nd) as Hsnd.
    { intros Hp. pose proof (file_not_above _ _ _ _ _ Hs Hp Hnd) as E.
      subst nd. by eapply file_not_dir. }
    split; [done|]. split; [done|]. split; [|split].
    + intros [r E]. destruct r as [|a r].
      { rewrite app_nil_r in E. done. }
      apply Hsnd. exists (removelast (a :: r)).
      assert (d = (s ++ removelast (a :: r)) ++ [List.last (a :: r) ""]).
      { rewrite <- app_assoc, <- app_removelast_last; done. }
      by eapply (app_inj_tail nd).
    + intros [r E]. destruct r as [|a r].
      { rewrite app_nil_r in E. done. }
      apply Hd. eapply (stat_prefix (tree fs) d (a :: r)); [|done].
      rewrite <- E. unfold stat. by rewrite Hs.
    + exists nd, nl. split; [done|]. by rewrite stat_del_other.
  - intros H. exists s, d, (Dir es). do 3 (split; [done|]).
    case_bool_decide as Hsame; [injection H as <-; by left|]. right.
    case_bool_decide as Hpre; [done|].
    assert (fs' = move_dir fs s d es
            ∧ ∀ es', get (tree fs) d = Some (Dir es') → dom es' = ∅)
      as [-> Hempty].
    { destruct (get (tree fs) d) as [[|es']|]; [discriminate H| |].
      - case_bool_decide; [|discriminate H].
        destruct (denied fs (Move s d)); [discriminate H|].
        split; [congruence|]. by intros ? [= <-].
      - destruct (denied fs (Move s d)); [discriminate H|].
        split; [congruence|by intros ? [=]]. }
    split; [done|]. split; [done|]. split; [done|]. split.
    + intros [r E]. destruct r as [|a r].
      { rewrite app_nil_r in E. done. }
      assert (get (tree fs) (d ++ a :: r) = Some (Dir es)) as Hg.
      { by rewrite <- E. }
      apply get_entry in Hg as (es' & Hd & [x Hx]).
      apply Hempty in Hd.
      assert (a ∈ dom es') as Ha by (apply elem_of_dom; eauto).
      rewrite Hd in Ha. set_solver.
    + exists nd, nl. split; [done|]. rewrite stat_del_other; [done|].
      intros Hp. apply Hpre. by apply prefix_app_r.
Qed.

Lemma rename_moved fs old new fs' s d :
  rename_fs fs old new = inr fs' →
  place fs old = Some s → place fs new = Some d →
  (∀ r, get (tree fs') (d ++ r) = get (tree fs) (s ++ r))
  ∧ (s ≠ d → get (tree fs') s = None)
  ∧ (∀ k, ¬ s `prefix_of` k → ¬ d `prefix_of` k →
          stat (tree fs') k = stat (tree fs) k).
Proof.
  intros (s' & d' & n & Hs & Hd & Hn & Hcase)%rename_effect Hs' Hd'.
  rewrite Hs in Hs'. rewrite Hd in Hd'.
  injection Hs' as ->. injection Hd' as ->.
  destruct Hcase as [[-> ->]|(Hne & -> & Hsd & Hds & nd & nl & -> & Hnd)].
  { done. }
  unfold relink. split; [|split].
  - intros r. by rewrite get_put_under, (get_app _ s), Hn.
  - intros _. apply stat_get_none. rewrite stat_put_other by done.
    apply stat_get_none. rewrite <- (app_nil_r s) at 2.
    apply get_del_below. intros ->. apply Hsd, prefix_nil.
  - intros k Hsk Hdk. by rewrite stat_put_other, stat_del_other.
Qed.

(** ** Where the returned path leads *)

Lemma places_head cur cs : cur ∈ places cur cs.
Proof. destruct cs; simpl; apply elem_of_cons; by left. Qed.

Lemma places_app cur xs ys k :
  k ∈ places cur xs → k ∈ places cur (xs ++ ys).
Proof.
  revert cur. induction xs as [|c xs IH]; intros cur.
  - intros ->%list_elem_of_singleton. apply places_head.
  - simpl. intros [->|H]%elem_of_cons; apply elem_of_cons; [by left|].
    right. by apply IH.
Qed.

(** A walk that succeeds succeeds wherever the places it passes are still
    directories. *)
Lemma walk_places o t t' cur cs k :
  (∀ q, q ∈ places cur cs → stat t q = Some KDir → stat t' q = Some KDir) →
  walk o t cur cs = inr k → walk o t' cur cs = inr k.
Proof.
  revert cur. induction cs as [|c cs IH]; intros cur Hd; [done|].
  simpl. destruct (stat t cur) as [[]|] eqn:E; [done| |done].
  rewrite (Hd cur (places_head _ _) E).
  destruct (refused o cur c); [done|]. apply IH.
  intros q Hq. apply Hd. simpl. apply elem_of_cons. by right.
Qed.

(** The places a walk that ends in a directory passes are directories. *)
Lemma walk_places_dirs o t cur cs k :
  walk o t cur cs = inr k → stat t k = Some KDir →
  ∀ q, q ∈ places cur cs → stat t q = Some KDir.
Proof.
  revert cur. induction cs as [|c cs IH]; intros cur.
  - intros [= ->] Hk q ->%list_elem_of_singleton. done.
  - simpl. destruct (stat t cur) as [[]|] eqn:E; [done| |done].
    destruct (refused o cur c); [done|].
    intros Hw Hk q [->|Hq]%elem_of_cons; [done|]. by eapply IH.
Qed.

(** What a move that changed something found at its target: nothing, or
    what can be replaced by the entry moved. *)
Lemma rename_onto fs old new fs' s d :
  rename_fs fs old new = inr fs' →
  place fs old = Some s → place fs new = Some d → s ≠ d →
  ∃ n, get (tree fs) s = Some n
       ∧ (trailing new = true → kind_of n = KDir)
       ∧ (stat (tree fs) d = Some KDir →
          kind_of n = KDir ∧ ∀ a, stat (tree fs) (d ++ [a]) = None)
       ∧ (cwd fs' = cwd fs ∨ cwd fs' = rekey s d (cwd fs))
       ∧ denied fs' = denied fs.
Proof.
  unfold rename_fs, rename_sys, place, granted.
  destruct (has_nul old || has_nul new); [done|].
  destruct (parent_of fs old) as [|[od ol]] eqn:Ho; [done|].
  destruct (parent_of fs new) as [|[nd nl]] eqn:Hn; [done|].
  destruct (denied fs (Cross od nd)); [done|].
  destruct (special ol) eqn:So; [done|].
  destruct (special nl) eqn:Sn; [done|]. simpl.
  destruct (refused (denied fs) od ol); [done|].
  destruct (refused (denied fs) nd nl); [done|].
  intros H [= <-] [= <-] Hne.
  destruct (get (tree fs) (od ++ [ol])) as [[c|es]|] eqn:Hs; [| |done].
  - destruct (trailing old); [done|]. destruct (trailing new); [done|].
    simpl in H. exists (File c). split; [done|]. split; [done|].
    destruct (stat (tree fs) (nd ++ [nl])) as [[]|]; [|done|];
      (split; [done|]);
      rewrite bool_decide_false in H by done;
      destruct (denied fs (Move _ _)); try done;
      injection H as <-; by split; [left|].
  - rewrite bool_decide_false in H by done.
    case_bool_decide; [done|].
    exists (Dir es). split; [done|]. split; [done|].
    destruct (get (tree fs) (nd ++ [nl])) as [[|es']|] eqn:Hd; [done| |].
    + case_bool_decide as He; [|done].
      destruct (denied fs (Move _ _)); [done|]. injection H as <-.
      split; [|by split; [right|]].
      intros _. split; [done|]. intros a. unfold stat.
      rewrite get_app, Hd. simpl.
      destruct (es' !! a) eqn:Ea; [|done].
      assert (a ∈ dom es') as Ha by (apply elem_of_dom; eauto).
      rewrite He in Ha. set_solver.
    + destruct (denied fs (Move _ _)); [done|]. injection H as <-.
      split; [|by split; [right|]].
      unfold stat. by rewrite Hd.
Qed.

Lemma rekey_other s d k : ¬ s `prefix_of` k → rekey s d k = k.
Proof. intros H. unfold rekey. by rewrite bool_decide_false. Qed.

(** The path a move was made to leads to the entry moved, unless a place
    it passes on the way was at or below the source. *)
Lemma rename_target_exists fs old new fs' s d :
  rename_fs fs old new = inr fs' →
  place fs old = Some s → place fs new = Some d →
  (s = d ∨ ∀ k, k ∈ places (start fs new)
                      (removelast (strip (split_slash new))) →
                ¬ s `prefix_of` k) →
  ∃ n, get (tree fs) s = Some n ∧ os_stat fs' new = inr (kind_of n).
Proof.
  intros Hmv Hs Hd Hcase.
  destruct (rename_ok_lookup _ _ _ _ Hmv)
    as (_ & Nn & od & ol & nd & nl & Ho & Hn & So & Sn & _ & Rn & Hden).
  destruct (rename_effect _ _ _ _ Hmv) as (s' & d' & n & Hs' & Hd' & Hg & Heff).
  rewrite Hs in Hs'. injection Hs' as <-.
  rewrite Hd in Hd'. injection Hd' as <-.
  exists n. split; [done|].
  destruct Heff as [[-> ->]|(Hne & Htree & Hsd & Hds & _)].
  { assert (trailing new = true → kind_of n = KDir) as Ht.
    { intros Ht. revert Hmv. unfold rename_fs, rename_sys.
      assert (d = od ++ [ol]) as Ed.
      { unfold place in Hs. rewrite Ho, So in Hs. by injection Hs. }
      destruct (has_nul old || has_nul new); [done|].
      rewrite Ho, Hn, So, Sn. simpl.
      destruct (denied fs (Cross od nd)); [done|].
      destruct (refused (denied fs) od ol); [done|].
      destruct (refused (denied fs) nd nl); [done|].
      rewrite <- Ed, Hg. destruct n; [|done].
      by rewrite Ht, orb_true_r. }
    eapply place_exists; [done|exact Hd|exact Hg| |exact Ht].
    intros d0 l0. rewrite Hn. by intros [= <- <-]. }
  destruct Hcase as [?|Hnp]; [done|].
  destruct (rename_onto _ _ _ _ _ _ Hmv Hs Hd Hne)
    as (n' & Hg' & Htn & Hdir & Hcwd & _).
  rewrite Hg in Hg'. injection Hg' as <-.
  assert (d = nd ++ [nl]) as Ed.
  { unfold place in Hd. rewrite Hn, Sn in Hd. by injection Hd. }
  destruct (parent_of_inv _ _ _ _ Hn Sn) as (Hne' & m & E & Et & Hw & Hnd).
  destruct (rename_moved _ _ _ _ s d Hmv Hs Hd) as (Hsub & _ & Hframe).
  assert (stat (tree fs') d = Some (kind_of n)) as Hgd.
  { specialize (Hsub []). rewrite !app_nil_r in Hsub.
    unfold stat. by rewrite Hsub, Hg. }
  (* the places passed are directories still *)
  assert (∀ k, ¬ s `prefix_of` k → stat (tree fs) k = Some KDir →
               stat (tree fs') k = Some KDir) as Hkept.
  { intros k Hsk Hk. destruct (decide (d `prefix_of` k)) as [[r ->]|Hdk].
    - assert (stat (tree fs) d = Some KDir) as Hdd.
      { destruct r; [by rewrite app_nil_r in Hk|].
        by eapply (stat_prefix _ d (_ :: _)). }
      destruct (Hdir Hdd) as [Hn' Hempty].
      destruct r as [|a r].
      + rewrite app_nil_r. by rewrite Hgd, Hn'.
      + assert (is_Some (stat (tree fs) (d ++ [a]))) as [x Hx].
        { destruct r as [|b r]; [eauto|]. exists KDir.
          eapply (stat_prefix _ (d ++ [a]) (b :: r)); [|done].
          by rewrite <- app_assoc. }
        by rewrite Hempty in Hx.
    - by rewrite Hframe. }
  assert (start fs' new = start fs new) as Hstart.
  { unfold start. destruct (isabs new) eqn:Ha; [done|].
    destruct Hcwd as [->| ->]; [done|]. apply rekey_other.
    apply Hnp. unfold start. rewrite Ha. apply places_head. }
  apply os_stat_inv. split; [done|]. exists d. split; [|done].
  unfold resolve. rewrite bool_decide_false by done.
  rewrite Hstart, Hden, E, !walk_app.
  rewrite (walk_places _ (tree fs) (tree fs') _ _ nd); [|by eauto|done].
  assert (¬ s `prefix_of` nd) as Hsnd.
  { intros Hp. apply Hsd. rewrite Ed. by apply prefix_app_r. }
  rewrite walk_one, (Hkept nd Hsnd Hnd), Rn, step_name, <- Ed by done.
  destruct m as [|m]; [done|]. apply walk_slashes.
  rewrite Hgd. f_equal. apply Htn. by rewrite Et.
Qed.

Import Examples.

Lemma events_of_run_app w w' evs :
  w_trace w' = w_trace w ++ evs → events_of_run w w' = evs.
Proof. unfold events_of_run. intros ->. apply drop_app_length. Qed.

Lemma isdir_nonempty fs p : isdir fs p = true → p ≠ "".
Proof. by intros H ->. Qed.

Lemma grows_same_files a b :
  grows (tree a) (tree b) → same_files a b.
Proof.
  intros Hg k d. split; [by apply grows_some|by apply grows_file].
Qed.

Lemma same_files_refl a : same_files a a.
Proof. by intros k d. Qed.

Lemma read_file_grows fs fs' p c :
  grows (tree fs) (tree fs') → cwd fs' = cwd fs → denied fs' = denied fs →
  read_file fs p = Some c → read_file fs' p = Some c.
Proof.
  intros Hg Hc Hd H. apply read_file_inv. eapply os_stat_grows; [done..|].
  by apply read_file_inv.
Qed.

(** ** The claims *)

Ltac run_events :=
  apply events_of_run_app; simpl; rewrite <- ?app_assoc; reflexivity.

(** What a call that returns has done. *)
Lemma download_data_ok_inv raw f w q w' :
  download_data raw (Some f) w = (inr q, w') →
  raw ≠ ""
  ∧ ∃ p fs1 fs2 fs3,
      f (w_fs w) = (inr p, fs1)
      ∧ makedirs_fs fs1 raw = (None, fs2)
      ∧ rename_fs fs2 p (join raw (basename p)) = inr fs3
      ∧ q = join raw (basename p)
      ∧ w_fs w' = fs3
      ∧ events_of_run w w'
        = [downloading; Called [] (inr p); Makedirs raw None;
           Rename p q None; saved_to q].
Proof.
  intros Hrun.
  assert (raw ≠ "") as Hraw.
  { intros ->. unfold download_data in Hrun. by simpl in Hrun. }
  split; [done|]. rewrite download_data_run in Hrun by done.
  destruct (f (w_fs w)) as [[e|p] fs1] eqn:Hf; [done|].
  destruct (makedirs_fs fs1 raw) as [[e|] fs2] eqn:Hmk; [done|].
  simpl in Hrun.
  destruct (rename_fs fs2 p _) as [e|fs3] eqn:Hmv; [done|].
  injection Hrun as <- <-. exists p, fs1, fs2, fs3.
  do 5 (split; [done|]). run_events.
Qed.

(** A downloaded regular file, once the directory is there and the move
    is made, is in the destination directory. *)
Lemma acquire_file raw p fs1 fs2 fs3 c :
  read_file fs1 p = Some c →
  makedirs_fs fs1 raw = (None, fs2) →
  rename_fs fs2 p (join raw (basename p)) = inr fs3 →
  read_file fs3 (join raw (basename p)) = Some c
  ∧ isdir fs3 raw = true
  ∧ (samefile fs2 p (join raw (basename p)) = false →
     path_exists fs3 p = false)
  ∧ cwd fs3 = cwd fs2
  ∧ denied fs3 = denied fs2
  ∧ ∀ q, stat (tree fs2) q = Some KDir → stat (tree fs3) q = Some KDir.
Proof.
  intros Hp Hmk Hmv.
  destruct (makedirs_grows _ _ _ _ Hmk) as (Hg & Hc & Ho).
  pose proof (makedirs_isdir _ _ _ Hmk) as Hd.
  pose proof (read_file_grows _ _ _ _ Hg Hc Ho Hp) as Hp2.
  destruct (rename_into fs2 p raw c fs3 Hp2 Hd Hmv)
    as (Hread & Hgone & Hc3 & Ho3 & Hkept).
  split; [done|]. split; [|done].
  apply isdir_inv. eapply os_stat_kept; [done..|]. by apply isdir_inv.
Qed.


(** C2, amended.  After a successful call on a downloaded regular file,
    the returned path holds the downloaded content; the downloaded path no
    longer exists, unless it was the target path's own file already when
    the move was made: then nothing moves and it stays. *)
Theorem download_data_moves raw f w p fs1 c q w' :
  f (w_fs w) = (inr p, fs1) →
  read_file fs1 p = Some c →
  download_data raw (Some f) w = (inr q, w') →
  q = join raw (basename p)
  ∧ read_file (w_fs w') q = Some c
  ∧ (samefile (snd (makedirs_fs fs1 raw)) p q = false →
     path_exists (w_fs w') p = false).
Proof.
  intros Hf Hp
    (Hraw & p' & fs1' & fs2 & fs3 & Hf' & Hmk & Hmv & -> & -> & _)
      %download_data_ok_inv.
  rewrite Hf in Hf'. injection Hf' as <- <-.
  destruct (acquire_file raw p fs1 fs2 fs3 c Hp Hmk Hmv)
    as (Hread & _ & Hgone & _).
  rewrite Hmk. done.
Qed.

(** Without a NUL byte in its paths, what [os.rename] raises is an
    [OSError]. *)
Lemma rename_fs_oserror fs old new x :
  has_nul old = false → has_nul new = false →
  rename_fs fs old new = inl x → ∃ n, x = OSError n.
Proof.
  unfold rename_fs. intros -> ->. simpl.
  destruct (rename_sys fs old new) as [n|]; [|done].
  intros [= <-]. eauto.
Qed.

(** C3.  A failing download function is not swallowed.  If it raises, the
    call raises the same exception and does nothing more.  If it returns a
    path where nothing is when the move is made, the call raises what
    [os.rename] raises, an [OSError] unless the path has a NUL byte in it,
    and moves nothing.  Either way the failure is an [AcquisitionFailed]
    one. *)
Theorem retrieval_failure_surfaces raw f w :
  raw ≠ "" →
  match f (w_fs w) with
  | (inl e, fs1) =>
      ∃ w', download_data raw (Some f) w = (inl e, w')
        ∧ w_fs w' = fs1
        ∧ events_of_run w w' = [downloading; Called [] (inl e)]
        ∧ failure_kind (events_of_run w w') = Some AcquisitionFailed
  | (inr p, fs1) =>
      ∀ fs2,
        makedirs_fs fs1 raw = (None, fs2) →
        path_exists fs2 p = false →
        ∃ e w',
          download_data raw (Some f) w = (inl e, w')
          ∧ rename_fs fs2 p (join raw (basename p)) = inl e
          ∧ w_fs w' = fs2
          ∧ failure_kind (events_of_run w w') = Some AcquisitionFailed
          ∧ (has_nul p = false → ∃ n, e = OSError n)
  end.
Proof.
  intros Hraw. rewrite download_data_run by done.
  destruct (f (w_fs w)) as [[e|p] fs1].
  - eexists. split; [done|]. split; [done|].
    assert (events_of_run w
              (emit (Called [] (inl e)) (set_fs fs1 (emit downloading w)))
            = [downloading; Called [] (inl e)]) as -> by run_events.
    done.
  - intros fs2 Hmk Hno. rewrite Hmk. simpl.
    destruct (rename_missing fs2 p (join raw (basename p)) Hno) as [e He].
    rewrite He. exists e. eexists. split; [done|]. split; [done|].
    split; [done|]. split.
    + erewrite events_of_run_app;
        [|simpl; rewrite <- ?app_assoc; reflexivity].
      done.
    + intros Np. eapply rename_fs_oserror; [done| |done].
      destruct (makedirs_ok _ _ _ Hmk) as (_ & Nr & _).
      apply has_nul_join; [done|]. by apply has_nul_basename.
Qed.

(** All or nothing, entry by entry.  Either an error is raised and no
    file has moved: the regular files are those the download function
    left, where it left them.  Or the target path is returned, and what
    the downloaded path named is at the place the target path named when
    the move was made.  The returned path then leads to it, as a regular
    file if it is one, unless a directory was moved and the target path
    passes a place at or below the place the directory was at. *)
Lemma download_data_all_or_nothing raw f w :
  match download_data raw f w with
  | (inl e, w') =>
      same_files (after_retrieval raw f w) (w_fs w')
      ∧ cwd (w_fs w') = cwd (after_retrieval raw f w)
  | (inr q, w') =>
      ∃ g p s d n,
        let fs2 := snd (makedirs_fs (after_retrieval raw f w) raw) in
        f = Some g ∧ fst (g (w_fs w)) = inr p ∧ q = join raw (basename p)
        ∧ place fs2 p = Some s ∧ place fs2 q = Some d
        ∧ get (tree fs2) s = Some n
        ∧ get (tree (w_fs w')) d = Some n
        ∧ (kind_of n ≠ KDir ∨ s = d
           ∨ (∀ k, k ∈ places (start fs2 q)
                         (removelast (strip (split_slash q))) →
                   ¬ s `prefix_of` k) →
           os_stat (w_fs w') q = inr (kind_of n))
  end.
Proof.
  unfold after_retrieval.
  destruct (decide (raw = "")) as [->|Hraw].
  { simpl. split; [apply same_files_refl|done]. }
  rewrite (bool_decide_false (raw = "")) by done.
  destruct f as [g|].
  2:{ unfold download_data. rewrite bool_decide_false by done.
      simpl. split; [apply same_files_refl|done]. }
  rewrite download_data_run by done.
  destruct (g (w_fs w)) as [[e|p] fs1] eqn:Hg; simpl.
  { split; [apply same_files_refl|done]. }
  destruct (makedirs_fs fs1 raw) as [[e|] fs2] eqn:Hmk; simpl.
  { destruct (makedirs_grows _ _ _ _ Hmk) as (Hgr & Hc & _).
    split; [by apply grows_same_files|done]. }
  destruct (makedirs_grows _ _ _ _ Hmk) as (Hgr & Hc & Ho).
  destruct (rename_fs fs2 p (join raw (basename p))) as [e|fs3] eqn:Hmv; simpl.
  { split; [by apply grows_same_files|done]. }
  destruct (rename_ok _ _ _ _ Hmv) as (s & d & n & Hs & Hd & Hn & _ & Hn').
  exists g, p, s, d, n. rewrite Hg. simpl.
  do 7 (split; [done|]). intros Hcase.
  destruct (rename_target_exists _ _ _ _ s d Hmv Hs Hd) as (n' & Hn2 & Hex).
  - destruct Hcase as [Hfile|[?|?]]; [|by left|by right].
    right. intros k Hk Hp. destruct n as [c|]; [|done].
    destruct (rename_ok_lookup _ _ _ _ Hmv)
      as (_ & _ & od & ol & nd & nl & _ & Hpn & _ & Sn & _).
    destruct (parent_of_inv _ _ _ _ Hpn Sn) as (_ & m & _ & _ & Hw & Hnd).
    pose proof (walk_places_dirs _ _ _ _ _ Hw Hnd k Hk) as Hkd.
    pose proof (file_not_above _ _ _ _ _ Hn Hp Hkd) as E. subst k.
    exact (file_not_dir _ _ _ Hn Hkd).
  - rewrite Hn in Hn2. by injection Hn2 as <-.
Qed.

(** C5.  An empty destination, or no download function, is a [ValueError]
    raised at once: the world is left exactly as it was, so the download
    function has not been called and the file system has not changed. *)
Theorem invalid_arguments_fail_fast :
  (∀ f w,
     download_data "" f w
     = (inl (ValueError "raw_data_path cannot be empty"), w))
  ∧ (∀ raw w,
       ∃ msg, download_data raw None w = (inl (ValueError msg), w))
  ∧ (∀ w, failure_kind (events_of_run w w) = Some InvalidArgument).
Proof.
  split; [done|]. split.
  - intros raw w. unfold download_data. case_bool_decide; by eexists.
  - intros w. unfold events_of_run. by rewrite drop_all.
Qed.



(** C7.  Once the two guards are passed, the download function is called
    exactly once, with no arguments and on the file system as the caller
    left it; nothing but the log line precedes the call, and the directory
    creation, if it is reached, comes right after it. *)
Theorem download_func_called_once raw f w :
  raw ≠ "" →
  ∃ rest,
    events_of_run w (snd (download_data raw (Some f) w))
    = downloading :: Called [] (fst (f (w_fs w))) :: rest
    ∧ filter (λ ev, is_call ev = true) rest = []
    ∧ (rest = [] ∨ ∃ o rest', rest = Makedirs raw o :: rest').
Proof.
  intros Hraw. rewrite download_data_run by done.
  destruct (f (w_fs w)) as [[e|p] fs1]; simpl.
  { exists []. split; [run_events|]. split; [done|by left]. }
  destruct (makedirs_fs fs1 raw) as [[e|] fs2]; simpl.
  { eexists. split; [run_events|]. split; [done|right; eauto]. }
  destruct (rename_fs fs2 p _) as [e|fs3]; simpl.
  all: eexists; (split; [run_events|]); split; [done|right; eauto].
Qed.

(** C8.  [download_data] does not look at the environment: from worlds
    that differ in their environment variables only, it returns the same
    result, leaves the same file system and the same trace, and leaves
    each environment as it was. *)
Theorem download_data_ignores_env raw f fs tr env1 env2 :
  let r1 := download_data raw f (World fs env1 tr) in
  let r2 := download_data raw f (World fs env2 tr) in
  fst r1 = fst r2
  ∧ w_fs (snd r1) = w_fs (snd r2)
  ∧ w_trace (snd r1) = w_trace (snd r2)
  ∧ w_env (snd r1) = env1
  ∧ w_env (snd r2) = env2.
Proof.
  destruct (decide (raw = "")) as [->|Hraw]; [done|].
  destruct f as [g|].
  2:{ unfold download_data. by rewrite bool_decide_false. }
  simpl. rewrite !download_data_run by done. simpl.
  destruct (g fs) as [[e|p] fs1]; [done|]. simpl.
  destruct (makedirs_fs fs1 raw) as [[e|] fs2]; [done|]. simpl.
  by destruct (rename_fs fs2 p _).
Qed.

(** [main] does read [RAW_DATA_PATH]: the directory it creates first is
    the one the variable names, or [data/raw/] without it. *)
Lemma main_reads_env :
  head (w_trace (snd (main "/srv" retrieve_raises w0)))
  = Some (Makedirs "/srv/data/raw/" None)
  ∧ head (w_trace (snd (main "/srv" retrieve_raises
             {| w_fs := fs0; w_env := {[ "RAW_DATA_PATH" := "elsewhere" ]};
                w_trace := [] |})))
    = Some (Makedirs "/srv/elsewhere" None).
Proof. split; vm_compute; reflexivity. Qed.

(** C9.  With a regular file already at the target path, in a destination
    directory that exists, a call that returns has replaced it: it
    returns the target path, which then holds the content of the
    downloaded file.  The file in the way is no error: the call raises
    only if the system denies [os.rename] a request, and the file then
    is as it was. *)
Theorem download_data_replaces raw f w p fs1 c c0 :
  f (w_fs w) = (inr p, fs1) →
  read_file fs1 p = Some c →
  isdir fs1 raw = true →
  read_file fs1 (join raw (basename p)) = Some c0 →
  match download_data raw (Some f) w with
  | (inr q, w') =>
      q = join raw (basename p)
      ∧ read_file (w_fs w') (join raw (basename p)) = Some c
  | (inl x, w') =>
      (∃ r e, denied fs1 r = Some e ∧ x = OSError e)
      ∧ read_file (w_fs w') (join raw (basename p)) = Some c0
  end.
Proof.
  intros Hf Hp Hd Hold.
  pose proof (isdir_nonempty _ _ Hd) as Hraw.
  pose proof (makedirs_existing _ _ Hd) as Hmk.
  rewrite download_data_run, Hf, Hmk by done. simpl.
  pose proof (rename_onto_file fs1 p raw c c0 Hp Hd Hold) as Hcase.
  destruct (rename_fs fs1 p (join raw (basename p))) as [x|fs3] eqn:Hmv.
  - by simpl.
  - simpl. split; [done|].
    by destruct (acquire_file raw p fs1 fs1 fs3 c Hp Hmk Hmv) as (? & _).
Qed.

(** C10.  [get_user] returns [None] for every name that is not a key of
    the user store, whose only key is [alice]; it returns a [UserInDB],
    built from the stored row, exactly for the names that are keys. *)
Theorem get_user_lookup `{Schemas} (name : string) :
  dom fake_users_db = {[ "alice" ]}
  ∧ get_user name
    = (if bool_decide (name ∈ dom fake_users_db)
       then Some (UserInDB_init alice) else None)
  ∧ (is_Some (get_user name) ↔ name ∈ dom fake_users_db).
Proof.
  assert (dom fake_users_db = ({[ "alice" ]} : gset string)) as Hdom.
  { unfold fake_users_db. by rewrite dom_singleton_L. }
  assert (get_user name
          = if bool_decide (name ∈ dom fake_users_db)
            then Some (UserInDB_init alice) else None) as Hget.
  { rewrite Hdom. unfold get_user, fake_users_db.
    case_bool_decide as Hn.
    - apply elem_of_singleton in Hn as ->. by rewrite lookup_singleton_eq.
    - rewrite lookup_singleton_ne; [done|]. set_solver. }
  split; [done|]. split; [done|]. rewrite Hget.
  case_bool_decide; split; done.
Qed.

(** ** The claims at concrete inputs *)

(** The scenario of the specification, run. *)
Example spec_scenario :
  let '(r, w) := download_data "/tmp/raw_data" (Some retrieve_zip) w0 in
  r = inr "/tmp/raw_data/accidents.zip"
  ∧ read_file (w_fs w) "/tmp/raw_data/accidents.zip" = Some "test data"
  ∧ path_exists (w_fs w) "/tmp/src/accidents.zip" = false
  ∧ isdir (w_fs w) "/tmp/raw_data" = true
  ∧ w_trace w =
      [downloading;
       Called [] (inr "/tmp/src/accidents.zip");
       Makedirs "/tmp/raw_data" None;
       Rename "/tmp/src/accidents.zip" "/tmp/raw_data/accidents.zip" None;
       saved_to "/tmp/raw_data/accidents.zip"].
Proof. vm_compute. repeat split; reflexivity. Qed.



(** It fails as well where a directory is where the file is to go, which
    [os.rename] refuses with [IsADirectoryError]. *)
Example download_data_target_is_directory :
  let fs := with_tree fs0
              (put (put (tree fs0) ["tmp"; "raw_data"] (Dir ∅))
                   ["tmp"; "raw_data"; "accidents.zip"] (Dir ∅)) in
  let w := {| w_fs := fs; w_env := ∅; w_trace := [] |} in
  isdir fs "/tmp/raw_data/accidents.zip" = true
  ∧ fst (download_data "/tmp/raw_data" (Some retrieve_zip) w)
    = inl (OSError EISDIR)
  ∧ read_file (w_fs (snd (download_data "/tmp/raw_data"
                            (Some retrieve_zip) w)))
      "/tmp/src/accidents.zip" = Some "test data".
Proof. vm_compute. repeat split; reflexivity. Qed.

(** And where the destination is on another device than the downloaded
    file: the directory is created, [os.rename] fails with [EXDEV], and
    the file stays where it was downloaded. *)
Example download_data_across_devices :
  let '(r, w) := download_data "/mnt/raw" (Some retrieve_zip) w_mnt in
  r = inl (OSError EXDEV)
  ∧ isdir (w_fs w) "/mnt/raw" = true
  ∧ path_exists (w_fs w) "/mnt/raw/accidents.zip" = false
  ∧ read_file (w_fs w) "/tmp/src/accidents.zip" = Some "test data"
  ∧ failure_kind (w_trace w) = Some AcquisitionFailed.
Proof. vm_compute. repeat split; reflexivity. Qed.

(** What [os.makedirs] raises besides: [FileExistsError] for a regular
    file with a slash behind it, [OSError] for a name of 256 bytes,
    [PermissionError] where the system denies the creation, [ValueError]
    for a NUL byte, after the directories before it have been created. *)
Example makedirs_failures :
  fst (download_data "/tmp/raw_data/" (Some retrieve_zip) w_blocked)
  = inl (OSError EEXIST)
  ∧ fst (download_data ("/tmp/" +:+ long_name) (Some retrieve_zip) w0)
    = inl (OSError ENAMETOOLONG)
  ∧ fst (download_data "/srv/raw" (Some retrieve_zip) w_srv)
    = inl (OSError EACCES)
  ∧ exception_class EACCES = "PermissionError"
  ∧ (let '(r, w) := download_data nul_path (Some retrieve_zip) w0 in
     r = inl (ValueError "embedded null byte")
     ∧ isdir (w_fs w) "/tmp/new" = true
     ∧ read_file (w_fs w) "/tmp/src/accidents.zip" = Some "test data"
     ∧ failure_kind (w_trace w) = Some DirectoryCreationFailed).
Proof. vm_compute. repeat split; reflexivity. Qed.

(** C2 at the scenario of the specification. *)
Lemma download_data_moves_witness :
  let q := "/tmp/raw_data/accidents.zip" in
  let w' := snd (download_data "/tmp/raw_data" (Some retrieve_zip) w0) in
  read_file (w_fs w') q = Some "test data"
  ∧ path_exists (w_fs w') "/tmp/src/accidents.zip" = false.
Proof.
  destruct (download_data_moves "/tmp/raw_data" retrieve_zip w0
              "/tmp/src/accidents.zip" fs0 "test data"
              "/tmp/raw_data/accidents.zip"
              (snd (download_data "/tmp/raw_data" (Some retrieve_zip) w0)))
    as (_ & Hread & Hgone).
  - reflexivity.
  - vm_compute; reflexivity.
  - vm_compute; reflexivity.
  - split; [exact Hread|]. apply Hgone. vm_compute; reflexivity.
Defined.

(** C2 as stated fails where the file is downloaded into the destination
    directory itself: the call succeeds, and the downloaded path, which is
    the returned path, still exists. *)
Lemma download_data_in_place_stays :
  let '(r, w) := download_data "/tmp/src" (Some retrieve_zip) w0 in
  r = inr "/tmp/src/accidents.zip"
  ∧ path_exists (w_fs w) "/tmp/src/accidents.zip" = true
  ∧ read_file (w_fs w) "/tmp/src/accidents.zip" = Some "test data".
Proof. vm_compute. repeat split; reflexivity. Qed.

(** C3 at a download function that raises, and at one that returns a path
    where nothing is. *)
Lemma retrieval_failure_surfaces_witness :
  (∃ w',
     download_data "/tmp/raw_data" (Some retrieve_raises) w0
     = (inl (Exception "ConnectionError" "network unreachable"), w')
     ∧ w_fs w' = fs0
     ∧ events_of_run w0 w'
       = [downloading;
          Called [] (inl (Exception "ConnectionError" "network unreachable"))]
     ∧ failure_kind (events_of_run w0 w') = Some AcquisitionFailed)
  ∧ (∃ e w',
       download_data "/tmp/raw_data" (Some retrieve_nothing) w0
       = (inl e, w')
       ∧ rename_fs (snd (makedirs_fs fs0 "/tmp/raw_data"))
           "/tmp/src/nothing.zip" "/tmp/raw_data/nothing.zip" = inl e
       ∧ w_fs w' = snd (makedirs_fs fs0 "/tmp/raw_data")
       ∧ failure_kind (events_of_run w0 w') = Some AcquisitionFailed
       ∧ (has_nul "/tmp/src/nothing.zip" = false → ∃ n, e = OSError n)).
Proof.
  split.
  - apply (retrieval_failure_surfaces "/tmp/raw_data" retrieve_raises w0).
    discriminate.
  - apply (retrieval_failure_surfaces "/tmp/raw_data" retrieve_nothing w0).
    + discriminate.
    + vm_compute; reflexivity.
    + vm_compute; reflexivity.
Defined.

(** The missing source of the witness is reported as [FileNotFoundError]. *)
Example missing_source_is_ENOENT :
  fst (download_data "/tmp/raw_data" (Some retrieve_nothing) w0)
  = inl (OSError ENOENT)
  ∧ exception_class ENOENT = "FileNotFoundError".
Proof. vm_compute. split; reflexivity. Qed.

(** C4.  The call can return a path at which nothing is.  The download
    function returns the directory [/tmp/src], the destination is
    [/tmp/src/../raw]: the directory is moved into [/tmp/raw], the call
    returns [/tmp/src/../raw/src], and that path does not exist, since
    [/tmp/src] is gone; the dataset is at [/tmp/raw/src]. *)
Theorem download_data_returns_dangling_path :
  let '(r, w) := download_data "/tmp/src/../raw" (Some retrieve_dir) w0 in
  r = inr "/tmp/src/../raw/src"
  ∧ path_exists (w_fs w) "/tmp/src/../raw/src" = false
  ∧ read_file (w_fs w) "/tmp/raw/src/accidents.zip" = Some "test data".
Proof. vm_compute. repeat split; reflexivity. Qed.

(** A moved directory is found at the returned path where the
    destination does not lead through it. *)
Example download_data_moves_directory :
  let '(r, w) := download_data "/tmp/raw_data" (Some retrieve_dir) w0 in
  r = inr "/tmp/raw_data/src"
  ∧ isdir (w_fs w) "/tmp/raw_data/src" = true
  ∧ read_file (w_fs w) "/tmp/raw_data/src/accidents.zip" = Some "test data".
Proof. vm_compute. repeat split; reflexivity. Qed.



(** The default destination of [main], relative and with a slash at its
    end, where [data] does not exist. *)
Example makedirs_default_destination :
  let '(r, w) := download_data "data/raw/" (Some retrieve_zip) w0 in
  r = inr "data/raw/accidents.zip"
  ∧ read_file (w_fs w) "/tmp/data/raw/accidents.zip" = Some "test data"
  ∧ makedirs_fs (w_fs w) "data/raw/" = (None, w_fs w).
Proof. vm_compute. repeat split; reflexivity. Qed.

(** C7 at the scenario of the specification. *)
Lemma download_func_called_once_witness :
  ∃ rest,
    events_of_run w0 (snd (download_data "/tmp/raw_data" (Some retrieve_zip) w0))
    = downloading :: Called [] (inr "/tmp/src/accidents.zip") :: rest
    ∧ filter (λ ev, is_call ev = true) rest = []
    ∧ (rest = [] ∨ ∃ o rest', rest = Makedirs "/tmp/raw_data" o :: rest').
Proof.
  apply (download_func_called_once "/tmp/raw_data" retrieve_zip w0).
  discriminate.
Defined.

(** C9 where a stale [accidents.zip] is in the destination. *)
Lemma download_data_replaces_witness :
  read_file fs_old "/tmp/raw_data/accidents.zip" = Some "stale"
  ∧ match download_data "/tmp/raw_data" (Some retrieve_zip) w_old with
    | (inr q, w') =>
        q = "/tmp/raw_data/accidents.zip"
        ∧ read_file (w_fs w') "/tmp/raw_data/accidents.zip" = Some "test data"
    | (inl x, w') =>
        (∃ r e, denied fs_old r = Some e ∧ x = OSError e)
        ∧ read_file (w_fs w') "/tmp/raw_data/accidents.zip" = Some "stale"
    end.
Proof.
  split; [vm_compute; reflexivity|].
  apply (download_data_replaces "/tmp/raw_data" retrieve_zip w_old
           "/tmp/src/accidents.zip" fs_old "test data" "stale").
  - reflexivity.
  - vm_compute; reflexivity.
  - vm_compute; reflexivity.
  - vm_compute; reflexivity.
Defined.

(** The run of that witness returns. *)
Example download_data_replaces_stale :
  let '(r, w) := download_data "/tmp/raw_data" (Some retrieve_zip) w_old in
  r = inr "/tmp/raw_data/accidents.zip"
  ∧ read_file (w_fs w) "/tmp/raw_data/accidents.zip" = Some "test data".
Proof. vm_compute. repeat split; reflexivity. Qed.

(** [get_user], run with the record schema. *)
Example get_user_alice :
  @get_user record_schemas "alice"
  = Some {| username := Some (VStr "alice");
            hashed_password := Some (VStr
              "$2b$12$KIXQ1j1F8pYQxvFJH3hE5O6ZLZK9Gz7Hh9c6mV1XyN0k7P6f4nJqS");
            disabled := Some (VBool false) |}
  ∧ @get_user record_schemas "bob" = None
  ∧ @get_user record_schemas "" = None.
Proof. vm_compute. repeat split; reflexivity. Qed.

(** * Further properties *)

(** ** The shape of the returned path *)

Lemma rfind_slash_app a b :
  rfind_slash b = (-1)%Z →
  rfind_slash (a +:+ "/" +:+ b) = Z.of_nat (String.length a).
Proof.
  intros Hb. induction a as [|c a IH].
  - rewrite append_nil. change ("/" +:+ b) with (String "/" b).
    simpl. rewrite Hb. done.
  - rewrite append_cons. simpl rfind_slash. rewrite IH.
    destruct (Z.leb_spec 0 (Z.of_nat (String.length a))); simpl; lia.
Qed.

Lemma take_chars_app a b : take_chars (String.length a) (a +:+ b) = a.
Proof.
  induction a as [|c a IH]; [done|].
  rewrite append_cons. simpl. by rewrite IH.
Qed.

Lemma length_snoc_slash a : String.length (a +:+ "/") = S (String.length a).
Proof.
  induction a as [|c a IH]; [done|]. rewrite append_cons. simpl. by rewrite IH.
Qed.

Lemma rstrip_slash_snoc a : rstrip_slash (a +:+ "/") = rstrip_slash a.
Proof.
  induction a as [|c a IH]; [done|].
  rewrite append_cons. simpl. by rewrite IH.
Qed.

Lemma rstrip_slash_cons c r :
  rstrip_slash (String c r) =
    match rstrip_slash r with
    | EmptyString => if bool_decide (c = "/"%char) then "" else String c ""
    | r' => String c r'
    end.
Proof. done. Qed.

Lemma rstrip_slash_id a : endswith_slash a = false → rstrip_slash a = a.
Proof.
  induction a as [|c a IH]; [done|].
  destruct a as [|c' a'].
  - simpl. by intros ->.
  - intros H. change (endswith_slash (String c' a') = false) in H.
    by rewrite rstrip_slash_cons, (IH H).
Qed.

Lemma all_slashes_endswith a :
  a ≠ "" → all_slashes a = true → endswith_slash a = true.
Proof.
  induction a as [|c a IH]; [done|]. intros _.
  simpl all_slashes. intros [Hc Ha]%andb_true_iff.
  destruct a as [|c' a']; [done|].
  change (endswith_slash (String c' a') = true). by apply IH.
Qed.

Lemma all_slashes_snoc a : all_slashes (a +:+ "/") = all_slashes a.
Proof.
  induction a as [|c a IH]; [done|].
  rewrite append_cons. simpl. by rewrite IH.
Qed.

(** [dirname] undoes [join] on a directory path without a slash at its
    end. *)
Lemma dirname_join a b :
  a ≠ "" → endswith_slash a = false → rfind_slash b = (-1)%Z →
  dirname (join a b) = a.
Proof.
  intros Ha He Hb. unfold join.
  rewrite (startswith_noslash b Hb), bool_decide_false, He by done. simpl.
  unfold dirname. rewrite rfind_slash_app by done.
  replace (Z.to_nat (Z.of_nat (String.length a) + 1))
    with (String.length (a +:+ "/")) by (rewrite length_snoc_slash; lia).
  rewrite <- append_assoc, take_chars_app.
  assert (all_slashes (a +:+ "/") = false) as ->.
  { rewrite all_slashes_snoc. destruct (all_slashes a) eqn:E; [|done].
    by rewrite (all_slashes_endswith a Ha E) in He. }
  rewrite bool_decide_false; [|by destruct a].
  simpl. by rewrite rstrip_slash_snoc, rstrip_slash_id.
Qed.

(** X1.  The path a successful call returns is the destination joined with
    the base name of the downloaded path: its base name is that name, it is
    absolute exactly when the destination is, and its directory name is the
    destination when that has no slash at its end. *)
Theorem returned_path_shape raw f w q w' :
  download_data raw (Some f) w = (inr q, w') →
  ∃ p, fst (f (w_fs w)) = inr p
    ∧ q = join raw (basename p)
    ∧ basename q = basename p
    ∧ isabs q = isabs raw
    ∧ (endswith_slash raw = false → dirname q = raw).
Proof.
  intros (Hraw & p & fs1 & fs2 & fs3 & Hf & _ & _ & -> & _)%download_data_ok_inv.
  exists p. rewrite Hf. split; [done|]. split; [done|].
  pose proof (basename_noslash p) as Hb.
  split; [by apply basename_join|]. split; [by apply isabs_join|].
  intros He. by apply dirname_join.
Qed.

(** ** The move, entry by entry *)

(** X2.  A successful call moves the entry the downloaded path names, be
    it a regular file or a directory with all it holds: what was at and
    below the source place is at and below the target place, and the
    source place is empty unless it is the target place. *)
Theorem download_data_moves_entry raw f w q w' :
  download_data raw (Some f) w = (inr q, w') →
  let fs2 := snd (makedirs_fs (snd (f (w_fs w))) raw) in
  ∃ p s d,
    fst (f (w_fs w)) = inr p
    ∧ place fs2 p = Some s ∧ place fs2 q = Some d
    ∧ is_Some (get (tree fs2) s)
    ∧ (∀ r, get (tree (w_fs w')) (d ++ r) = get (tree fs2) (s ++ r))
    ∧ (s ≠ d → get (tree (w_fs w')) s = None).
Proof.
  intros (Hraw & p & fs1 & fs2 & fs3 & Hf & Hmk & Hmv & -> & -> & _)
    %download_data_ok_inv.
  rewrite Hf. simpl. rewrite Hmk. simpl.
  destruct (rename_effect _ _ _ _ Hmv) as (s & d & n & Hs & Hd & Hn & _).
  destruct (rename_moved _ _ _ _ s d Hmv Hs Hd) as (Hsub & Hgone & _).
  exists p, s, d. rewrite Hn. eauto 10.
Qed.

(** X3.  A successful call touches nothing but the source and the target:
    every place that is at or below neither holds what it held, and every
    regular file the download function left there is still there with its
    content. *)
Theorem download_data_frame raw f w q w' :
  download_data raw (Some f) w = (inr q, w') →
  let fs1 := snd (f (w_fs w)) in
  let fs2 := snd (makedirs_fs fs1 raw) in
  ∃ p s d,
    fst (f (w_fs w)) = inr p
    ∧ place fs2 p = Some s ∧ place fs2 q = Some d
    ∧ (∀ k, ¬ s `prefix_of` k → ¬ d `prefix_of` k →
            stat (tree (w_fs w')) k = stat (tree fs2) k)
    ∧ (∀ k c, stat (tree fs1) k = Some (KFile c) →
              ¬ s `prefix_of` k → ¬ d `prefix_of` k →
              stat (tree (w_fs w')) k = Some (KFile c)).
Proof.
  intros (Hraw & p & fs1 & fs2 & fs3 & Hf & Hmk & Hmv & -> & -> & _)
    %download_data_ok_inv.
  rewrite Hf. simpl. rewrite Hmk. simpl.
  destruct (rename_effect _ _ _ _ Hmv) as (s & d & n & Hs & Hd & Hn & _).
  destruct (rename_moved _ _ _ _ s d Hmv Hs Hd) as (_ & _ & Hframe).
  destruct (makedirs_grows _ _ _ _ Hmk) as (Hg & _).
  exists p, s, d. do 4 (split; [done|]).
  intros k c Hk Hsk Hdk. rewrite Hframe by done. by eapply grows_some.
Qed.

(** ** Failures after the download *)

(** X4.  A call that fails after the download function has returned a
    regular file loses nothing: the file is still at the path the function
    returned, with its content, and a destination directory that was
    created stays. *)
Theorem download_data_failure_keeps_source raw f w p fs1 c e w' :
  raw ≠ "" →
  f (w_fs w) = (inr p, fs1) →
  read_file fs1 p = Some c →
  download_data raw (Some f) w = (inl e, w') →
  read_file (w_fs w') p = Some c
  ∧ (fst (makedirs_fs fs1 raw) = None → isdir (w_fs w') raw = true).
Proof.
  intros Hraw Hf Hp. rewrite download_data_run, Hf by done.
  destruct (makedirs_fs fs1 raw) as [[e'|] fs2] eqn:Hmk; simpl.
  - destruct (makedirs_grows _ _ _ _ Hmk) as (Hg & Hc & Ho).
    intros [= <- <-]. simpl. split; [by eapply read_file_grows|done].
  - destruct (makedirs_grows _ _ _ _ Hmk) as (Hg & Hc & Ho).
    destruct (rename_fs fs2 p _) as [e'|fs3]; [|done].
    intros [= <- <-]. simpl. split; [by eapply read_file_grows|].
    intros _. by eapply makedirs_isdir.
Qed.

(** X5.  When [os.makedirs] fails, what it raised is what the call
    raises.  By then the download function has run; the move is not
    attempted, and no regular file has changed: at most directories have
    been added. *)
Theorem makedirs_failure_propagates raw f w p fs1 e fs2 :
  raw ≠ "" →
  f (w_fs w) = (inr p, fs1) →
  makedirs_fs fs1 raw = (Some e, fs2) →
  ∃ w',
    download_data raw (Some f) w = (inl e, w')
    ∧ w_fs w' = fs2
    ∧ same_files fs1 fs2
    ∧ grows (tree fs1) (tree fs2)
    ∧ events_of_run w w'
      = [downloading; Called [] (inr p); Makedirs raw (Some e)].
Proof.
  intros Hraw Hf Hmk. rewrite download_data_run, Hf, Hmk by done.
  eexists. split; [done|]. split; [done|].
  destruct (makedirs_grows _ _ _ _ Hmk) as (Hg & _).
  split; [by apply grows_same_files|]. split; [done|]. run_events.
Qed.

(** ** The log *)

Lemma saved_to_inj q q' : saved_to q = saved_to q' → q = q'.
Proof.
  unfold saved_to. intros [= H]. by eapply (inj (String.app _)).
Qed.

Lemma last_five (a b c d e : event) : last [a; b; c; d; e] = Some e.
Proof. done. Qed.

(** X6.  Once the guards are passed, the line [Data saved to] is the last
    thing a run does exactly when the call returns, and the path it names
    is the path returned. *)
Theorem saved_logged_iff_returned raw f w q :
  raw ≠ "" →
  fst (download_data raw (Some f) w) = inr q
  ↔ last (events_of_run w (snd (download_data raw (Some f) w)))
    = Some (saved_to q).
Proof.
  intros Hraw. rewrite download_data_run by done.
  destruct (f (w_fs w)) as [[e|p] fs1]; simpl.
  { erewrite events_of_run_app;
      [|simpl; rewrite <- ?app_assoc; reflexivity]. done. }
  destruct (makedirs_fs fs1 raw) as [[e|] fs2]; simpl.
  { erewrite events_of_run_app;
      [|simpl; rewrite <- ?app_assoc; reflexivity]. done. }
  destruct (rename_fs fs2 p _) as [e|fs3]; simpl.
  { erewrite events_of_run_app;
      [|simpl; rewrite <- ?app_assoc; reflexivity]. done. }
  erewrite events_of_run_app;
    [|simpl; rewrite <- ?app_assoc; reflexivity].
  cbn [app]. rewrite last_five.
  split; [by intros [= <-]|].
  intros H. f_equal. apply saved_to_inj. congruence.
Qed.

(** ** A second call *)

Lemma parent_of_kept fs fs' p x :
  (∀ q, stat (tree fs) q = Some KDir → stat (tree fs') q = Some KDir) →
  cwd fs' = cwd fs → denied fs' = denied fs →
  parent_of fs p = inr x → parent_of fs' p = inr x.
Proof.
  intros Hd Hc Ho. unfold parent_of, start. rewrite Hc, Ho.
  case_bool_decide; [done|].
  destruct (walk _ (tree fs) _ _) as [|k] eqn:Hw; [done|].
  rewrite (walk_mono _ _ _ _ _ _ Hd Hw).
  destruct (stat (tree fs) k) as [[]|] eqn:Hk; [done| |done].
  by rewrite (Hd _ Hk).
Qed.

Lemma place_spec fs p d l :
  parent_of fs p = inr (d, l) → special l = false →
  place fs p = Some (d ++ [l]).
Proof. unfold place. by intros -> ->. Qed.

(** X7.  The call is not repeatable.  After a call that moved a regular
    file away, a second call whose download function returns the same path
    without producing the file again raises [FileNotFoundError]; the file
    placed by the first call is untouched. *)
Theorem second_call_finds_nothing raw f g w p fs1 c q w1 :
  f (w_fs w) = (inr p, fs1) →
  read_file fs1 p = Some c →
  download_data raw (Some f) w = (inr q, w1) →
  samefile (snd (makedirs_fs fs1 raw)) p q = false →
  g (w_fs w1) = (inr p, w_fs w1) →
  ∃ w2,
    download_data raw (Some g) w1 = (inl (OSError ENOENT), w2)
    ∧ w_fs w2 = w_fs w1
    ∧ read_file (w_fs w2) q = Some c.
Proof.
  intros Hf Hp
    (Hraw & p' & fs1' & fs2 & fs3 & Hf' & Hmk & Hmv & -> & Hw1 & _)
      %download_data_ok_inv Hsame Hg.
  rewrite Hw1 in Hg.
  rewrite Hf in Hf'. injection Hf' as <- <-.
  rewrite Hmk in Hsame. simpl in Hsame.
  destruct (makedirs_grows _ _ _ _ Hmk) as (Hgr & Hc & Ho).
  pose proof (makedirs_isdir _ _ _ Hmk) as Hd.
  pose proof (read_file_grows _ _ _ _ Hgr Hc Ho Hp) as Hp2.
  destruct (rename_into fs2 p raw c fs3 Hp2 Hd Hmv)
    as (Hread & Hgone & Hc3 & Ho3 & Hkept).
  specialize (Hgone Hsame).
  (* where the two paths point, before and after the move *)
  pose proof Hp2 as (Np & s & Hrs & Hs)%read_file_inv%os_stat_inv.
  destruct (locate_file _ _ _ _ Hrs Hs) as (od & Hpo & -> & So & To & Ro).
  pose proof Hd as (Nr & k & Hrk & Hk)%isdir_inv%os_stat_inv.
  pose proof (basename_plain p So) as Hb.
  destruct (locate_join _ _ _ _ Hraw Hb Hrk Hk) as (Hn & Tn & Hrd).
  pose proof (parent_of_kept _ _ _ _ Hkept Hc3 Ho3 Hpo) as Hpo3.
  pose proof (parent_of_kept _ _ _ _ Hkept Hc3 Ho3 Hn) as Hn3.
  destruct (rename_ok_lookup _ _ _ _ Hmv)
    as (_ & Nq & od' & ol' & nd' & nl' & Hpo' & Hn' & _ & _ & _ & Rn & _).
  rewrite Hpo in Hpo'. injection Hpo' as <- <-.
  rewrite Hn in Hn'. injection Hn' as <- <-.
  assert (denied fs2 (Cross od k) = None) as Hcross.
  { revert Hmv. unfold rename_fs, rename_sys. rewrite Np, Nq, Hpo, Hn. simpl.
    by destruct (denied fs2 (Cross od k)). }
  assert (get (tree fs3) (od ++ [basename p]) = None) as Hnone.
  { destruct (get (tree fs3) (od ++ [basename p])) as [n|] eqn:E; [|done].
    assert (os_stat fs3 p = inr (kind_of n)) as H.
    { eapply place_exists; [done|by eapply place_spec|done| |].
      - intros d' l'. rewrite Hpo3. intros [= <- <-]. by rewrite Ho3.
      - by rewrite To. }
    unfold path_exists in Hgone. by rewrite H in Hgone. }
  assert (rename_fs fs3 p (join raw (basename p)) = inl (OSError ENOENT))
    as Hmv3.
  { unfold rename_fs, rename_sys.
    by rewrite Np, Nq, Hpo3, Hn3, Ho3, Hcross, So, Ro, Rn, Hnone. }
  assert (makedirs_fs fs3 raw = (None, fs3)) as Hmk3.
  { apply makedirs_existing, isdir_inv. eapply os_stat_kept; [done..|].
    by apply isdir_inv. }
  rewrite download_data_run, Hw1, Hg by done. simpl.
  rewrite Hmk3. simpl. rewrite Hmv3.
  eexists. by split.
Qed.

(** ** A downloaded path with a slash at its end *)

Lemma append_empty_r s : s +:+ "" = s.
Proof.
  induction s as [|c r IH]; [done|]. by rewrite append_cons, IH.
Qed.

Lemma strip_snoc_empty cs : strip (cs ++ [""]) = strip cs.
Proof.
  induction cs as [|c cs IH]; [done|]. simpl. by rewrite IH.
Qed.

Lemma strip_length cs : (length (strip cs) <= length cs)%nat.
Proof.
  induction cs as [|c cs IH]; [done|]. simpl.
  destruct (strip cs); [case_bool_decide|]; simpl in *; lia.
Qed.

Lemma trailing_endswith p : endswith_slash p = true → trailing p = true.
Proof.
  intros [p' ->]%endswith_slash_inv. unfold trailing.
  rewrite split_slash_snoc, strip_snoc_empty. apply bool_decide_eq_true.
  intros E. pose proof (strip_length (split_slash p')) as H.
  rewrite E, length_app in H. simpl in H. lia.
Qed.

Lemma basename_endswith p : endswith_slash p = true → basename p = "".
Proof.
  intros [p' ->]%endswith_slash_inv.
  rewrite basename_last, split_slash_snoc. apply last_snoc.
Qed.

Lemma join_empty a :
  a ≠ "" → join a "" = if endswith_slash a then a else a +:+ "/".
Proof.
  intros Ha. unfold join. simpl. rewrite bool_decide_false by done. simpl.
  destruct (endswith_slash a); by rewrite append_empty_r.
Qed.

(** X8.  When the download function returns a path with a slash at its
    end, the base name is empty: the path returned is the destination
    itself with a slash at its end, not a path inside it, and what has
    been moved there is a directory, the downloaded one. *)
Theorem download_data_trailing_slash raw f w q w' :
  download_data raw (Some f) w = (inr q, w') →
  ∀ p, fst (f (w_fs w)) = inr p → endswith_slash p = true →
  let fs2 := snd (makedirs_fs (snd (f (w_fs w))) raw) in
  basename p = ""
  ∧ q = (if endswith_slash raw then raw else raw +:+ "/")
  ∧ ∃ s d es,
      place fs2 p = Some s ∧ get (tree fs2) s = Some (Dir es)
      ∧ place fs2 q = Some d ∧ get (tree (w_fs w')) d = Some (Dir es).
Proof.
  intros (Hraw & p' & fs1 & fs2 & fs3 & Hf & Hmk & Hmv & -> & -> & _)
    %download_data_ok_inv p Hp He.
  rewrite Hf in Hp |- *. injection Hp as ->. simpl. rewrite Hmk. simpl.
  pose proof (basename_endswith p He) as Hb. rewrite Hb in *.
  split; [done|]. split; [by apply join_empty|].
  destruct (rename_ok _ _ _ _ Hmv) as (s & d & n & Hs & Hd & Hn & Hk & Hn').
  specialize (Hk (trailing_endswith p He)).
  destruct n as [|es]; [done|]. eauto 10.
Qed.

(** ** [main] *)

Lemma main_run root f w :
  main root f w =
    let dest := join root (default "data/raw/" (w_env w !! "RAW_DATA_PATH")) in
    let '(o, fs') := makedirs_fs (w_fs w) dest in
    let w1 := emit (Makedirs dest o) (set_fs fs' w) in
    match o with
    | Some e => (inl e, w1)
    | None =>
        match download_data dest (Some f) w1 with
        | (inl e, w2) => (inl e, w2)
        | (inr _, w2) => (inr tt, w2)
        end
    end.
Proof.
  unfold main, bind, os_getenv, os_makedirs, ret. simpl.
  destruct (makedirs_fs _ _) as [[e|] fs']; [done|].
  by destruct (download_data _ _ _) as [[] ?].
Qed.

Lemma makedirs_ok_nonempty fs p fs' :
  makedirs_fs fs p = (None, fs') → p ≠ "".
Proof. intros H ->. by unfold makedirs_fs in H. Qed.

(** X9.  [main] creates its destination before anything else.  If that
    fails, [main] raises what [os.makedirs] raised and the download
    function is not called; if it succeeds, the download function is called next, on the
    file system with the destination in it. *)
Theorem main_creates_first root f w :
  let dest := join root (default "data/raw/" (w_env w !! "RAW_DATA_PATH")) in
  match makedirs_fs (w_fs w) dest with
  | (Some e, fs') =>
      fst (main root f w) = inl e
      ∧ w_fs (snd (main root f w)) = fs'
      ∧ events_of_run w (snd (main root f w)) = [Makedirs dest (Some e)]
  | (None, fs') =>
      isdir fs' dest = true
      ∧ ∃ rest,
          events_of_run w (snd (main root f w))
          = Makedirs dest None :: downloading :: Called [] (fst (f fs'))
              :: rest
          ∧ filter (λ ev, is_call ev = true) rest = []
  end.
Proof.
  intros dest.
  destruct (makedirs_fs (w_fs w) dest) as [[e|] fs'] eqn:Hmk;
    rewrite main_run; cbv zeta; unfold dest in Hmk; rewrite Hmk;
    fold dest in Hmk |- *.
  { split; [done|]. split; [done|]. run_events. }
  split; [by eapply makedirs_isdir|].
  pose proof (makedirs_ok_nonempty _ _ _ Hmk) as Hne.
  rewrite download_data_run by done. simpl.
  destruct (f fs') as [[e|p] fs1]; simpl.
  { exists []. split; [run_events|done]. }
  destruct (makedirs_fs fs1 dest) as [[e|] fs2]; simpl.
  { eexists. split; [run_events|done]. }
  destruct (rename_fs fs2 p _) as [e|fs3]; simpl.
  all: eexists; (split; [run_events|done]).
Qed.

Lemma join_endswith a b : ∃ pre, join a b = pre +:+ b.
Proof.
  unfold join. destruct (startswith_slash b); [by exists ""|].
  destruct (bool_decide (a = "") || endswith_slash a); [by exists a|].
  exists (a +:+ "/"). by rewrite append_assoc.
Qed.

(** X11.  The destination of [main] ends with the value of
    [RAW_DATA_PATH], or with [data/raw/] when the variable is not set,
    and is that value alone when the value is absolute.  No other
    directory is asked of [os.makedirs] in the run. *)
Theorem main_destination root f w :
  let v := default "data/raw/" (w_env w !! "RAW_DATA_PATH") in
  let dest := join root v in
  (∃ pre, dest = pre +:+ v)
  ∧ (isabs v = true → dest = v)
  ∧ ∃ o rest,
      events_of_run w (snd (main root f w)) = Makedirs dest o :: rest
      ∧ ∀ path o', Makedirs path o' ∈ rest → path = dest.
Proof.
  intros v dest. split; [apply join_endswith|]. split.
  { unfold dest, join, isabs. by intros ->. }
  destruct (makedirs_fs (w_fs w) dest) as [[e|] fs'] eqn:Hmk;
    rewrite main_run; cbv zeta; unfold dest, v in Hmk; rewrite Hmk;
    fold v in Hmk |- *; fold dest in Hmk |- *.
  { exists (Some e), []. split; [run_events|]. by intros ?? ?%elem_of_nil. }
  pose proof (makedirs_ok_nonempty _ _ _ Hmk) as Hne.
  rewrite download_data_run by done. simpl.
  exists None.
  destruct (f fs') as [[e|p] fs1]; simpl;
    [|destruct (makedirs_fs fs1 dest) as [[e|] fs2]; simpl;
      [|destruct (rename_fs fs2 p _) as [e|fs3]; simpl]].
  all: eexists; (split; [run_events|]).
  all: intros path o' Hin; cbn [app] in Hin; unfold downloading, saved_to in Hin.
  all: repeat (apply elem_of_cons in Hin as [Heq|Hin]; [congruence|]).
  all: by apply elem_of_nil in Hin.
Qed.

(** ** The further properties at concrete inputs *)

(** X1 at the scenario of the specification. *)
Lemma returned_path_shape_witness :
  basename "/tmp/raw_data/accidents.zip" = "accidents.zip"
  ∧ isabs "/tmp/raw_data/accidents.zip" = true
  ∧ dirname "/tmp/raw_data/accidents.zip" = "/tmp/raw_data".
Proof.
  destruct (returned_path_shape "/tmp/raw_data" retrieve_zip w0
              "/tmp/raw_data/accidents.zip"
              (snd (download_data "/tmp/raw_data" (Some retrieve_zip) w0)))
    as (p & Hp & _ & Hb & Ha & Hd).
  - vm_compute; reflexivity.
  - injection Hp as <-. split; [exact Hb|]. split; [exact Ha|].
    apply Hd. reflexivity.
Defined.

(** With a slash at the end of the destination, as [main] has it by
    default, the directory name of the returned path is not the
    destination as it was given. *)
Example dirname_with_slash :
  fst (download_data "data/raw/" (Some retrieve_zip) w0)
  = inr "data/raw/accidents.zip"
  ∧ dirname "data/raw/accidents.zip" = "data/raw".
Proof. vm_compute. split; reflexivity. Qed.

(** X2 at a downloaded directory: [/tmp/src] with the file in it goes to
    [/tmp/raw_data/src]. *)
Lemma download_data_moves_entry_witness :
  let w' := snd (download_data "/tmp/raw_data" (Some retrieve_dir) w0) in
  get (tree (w_fs w')) ["tmp"; "raw_data"; "src"; "accidents.zip"]
  = Some (File "test data")
  ∧ get (tree (w_fs w')) ["tmp"; "src"] = None.
Proof.
  destruct (download_data_moves_entry "/tmp/raw_data" retrieve_dir w0
              "/tmp/raw_data/src"
              (snd (download_data "/tmp/raw_data" (Some retrieve_dir) w0)))
    as (p & s & d & Hp & Hs & Hd & _ & Hsub & Hgone).
  - vm_compute; reflexivity.
  - injection Hp as <-.
    assert (s = ["tmp"; "src"]) as ->.
    { vm_compute in Hs. by injection Hs as <-. }
    assert (d = ["tmp"; "raw_data"; "src"]) as ->.
    { vm_compute in Hd. by injection Hd as <-. }
    split.
    + etrans; [exact (Hsub ["accidents.zip"])|]. vm_compute; reflexivity.
    + apply Hgone. discriminate.
Defined.

(** X3 where a stale file of another name is in the destination: it
    stays. *)
Lemma download_data_frame_witness :
  let fs := with_tree fs_old
              (put (tree fs_old) ["tmp"; "raw_data"; "other.csv"]
                 (File "other")) in
  let w := {| w_fs := fs; w_env := ∅; w_trace := [] |} in
  let w' := snd (download_data "/tmp/raw_data" (Some retrieve_zip) w) in
  stat (tree (w_fs w')) ["tmp"; "raw_data"; "other.csv"]
  = Some (KFile "other").
Proof.
  intros fs w w'.
  destruct (download_data_frame "/tmp/raw_data" retrieve_zip w
              "/tmp/raw_data/accidents.zip" w')
    as (p & s & d & Hp & Hs & Hd & _ & Hfiles).
  - vm_compute; reflexivity.
  - injection Hp as <-.
    assert (s = ["tmp"; "src"; "accidents.zip"]) as ->.
    { vm_compute in Hs. by injection Hs as <-. }
    assert (d = ["tmp"; "raw_data"; "accidents.zip"]) as ->.
    { vm_compute in Hd. by injection Hd as <-. }
    apply Hfiles.
    + vm_compute; reflexivity.
    + intros [r [=]].
    + intros [r [=]].
Defined.

(** X4 where the destination is a regular file: the downloaded file is
    still where the download function left it. *)
Lemma download_data_failure_keeps_source_witness :
  let w' := snd (download_data "/tmp/raw_data" (Some retrieve_zip) w_blocked) in
  read_file (w_fs w') "/tmp/src/accidents.zip" = Some "test data"
  ∧ (fst (makedirs_fs fs_blocked "/tmp/raw_data") = None →
     isdir (w_fs w') "/tmp/raw_data" = true).
Proof.
  apply (download_data_failure_keeps_source "/tmp/raw_data" retrieve_zip
           w_blocked "/tmp/src/accidents.zip" fs_blocked "test data"
           (OSError EEXIST)).
  - discriminate.
  - reflexivity.
  - vm_compute; reflexivity.
  - vm_compute; reflexivity.
Defined.

(** X5 at the same place, and at a destination with a NUL byte: the
    directory before it has been created. *)
Lemma makedirs_failure_propagates_witness :
  (∃ w',
     download_data "/tmp/raw_data" (Some retrieve_zip) w_blocked
     = (inl (OSError EEXIST), w')
     ∧ w_fs w' = fs_blocked
     ∧ same_files fs_blocked fs_blocked
     ∧ grows (tree fs_blocked) (tree fs_blocked)
     ∧ events_of_run w_blocked w'
       = [downloading; Called [] (inr "/tmp/src/accidents.zip");
          Makedirs "/tmp/raw_data" (Some (OSError EEXIST))])
  ∧ (∃ w',
       download_data nul_path (Some retrieve_zip) w0
       = (inl embedded_null, w')
       ∧ w_fs w' = snd (makedirs_fs fs0 nul_path)
       ∧ same_files fs0 (snd (makedirs_fs fs0 nul_path))
       ∧ grows (tree fs0) (tree (snd (makedirs_fs fs0 nul_path)))
       ∧ events_of_run w0 w'
         = [downloading; Called [] (inr "/tmp/src/accidents.zip");
            Makedirs nul_path (Some embedded_null)]).
Proof.
  split.
  - apply (makedirs_failure_propagates "/tmp/raw_data" retrieve_zip w_blocked
             "/tmp/src/accidents.zip" fs_blocked (OSError EEXIST) fs_blocked).
    + discriminate.
    + reflexivity.
    + vm_compute; reflexivity.
  - apply (makedirs_failure_propagates nul_path retrieve_zip w0
             "/tmp/src/accidents.zip" fs0 embedded_null
             (snd (makedirs_fs fs0 nul_path))).
    + discriminate.
    + reflexivity.
    + vm_compute; reflexivity.
Defined.

(** X6 at the scenario of the specification, and at a download function
    that raises. *)
Lemma saved_logged_iff_returned_witness :
  last (events_of_run w0
          (snd (download_data "/tmp/raw_data" (Some retrieve_zip) w0)))
  = Some (saved_to "/tmp/raw_data/accidents.zip")
  ∧ last (events_of_run w0
            (snd (download_data "/tmp/raw_data" (Some retrieve_raises) w0)))
    ≠ Some (saved_to "/tmp/raw_data/accidents.zip").
Proof.
  split.
  - apply (saved_logged_iff_returned "/tmp/raw_data" retrieve_zip w0).
    + discriminate.
    + vm_compute; reflexivity.
  - intros H.
    apply (saved_logged_iff_returned "/tmp/raw_data" retrieve_raises w0) in H.
    + vm_compute in H. discriminate H.
    + discriminate.
Defined.

(** X7 at the scenario of the specification, called twice. *)
Lemma second_call_finds_nothing_witness :
  let w1 := snd (download_data "/tmp/raw_data" (Some retrieve_zip) w0) in
  ∃ w2,
    download_data "/tmp/raw_data" (Some retrieve_zip) w1
    = (inl (OSError ENOENT), w2)
    ∧ w_fs w2 = w_fs w1
    ∧ read_file (w_fs w2) "/tmp/raw_data/accidents.zip" = Some "test data".
Proof.
  apply (second_call_finds_nothing "/tmp/raw_data" retrieve_zip retrieve_zip
           w0 "/tmp/src/accidents.zip" fs0 "test data").
  - reflexivity.
  - vm_compute; reflexivity.
  - vm_compute; reflexivity.
  - vm_compute; reflexivity.
  - reflexivity.
Defined.

(** X8 at a downloaded directory given with a slash: what was in
    [/tmp/src] is in [/tmp/raw_data] itself. *)
Lemma download_data_trailing_slash_witness :
  let w' := snd (download_data "/tmp/raw_data" (Some retrieve_dir_slash) w0) in
  fst (download_data "/tmp/raw_data" (Some retrieve_dir_slash) w0)
  = inr "/tmp/raw_data/"
  ∧ basename "/tmp/src/" = ""
  ∧ read_file (w_fs w') "/tmp/raw_data/accidents.zip" = Some "test data".
Proof.
  destruct (download_data_trailing_slash "/tmp/raw_data" retrieve_dir_slash
              w0 "/tmp/raw_data/"
              (snd (download_data "/tmp/raw_data"
                      (Some retrieve_dir_slash) w0)))
    with (p := "/tmp/src/") as (Hb & Hq & _).
  - vm_compute; reflexivity.
  - reflexivity.
  - reflexivity.
  - split; [vm_compute; reflexivity|]. split; [exact Hb|].
    vm_compute; reflexivity.
Defined.
